(** * crodump.Database: definition decoding, table catalog and record sweeps

    A shallow embedding of [crodump/Database.py]: the key/value decoder of the
    database definition ([decode_db_definition]), the table catalog walker
    ([enumerate_tables]), the filtered sweeps ([enumerate_records],
    [enumerate_files]) and the raw sweep with statistics ([recdump]).

    Python values are modelled as follows.
    - [bytes] is [list byte]; an [int] that is a byte value, a dword or a
      record number is an [N] or a [nat];
    - [str] is [string], one character per byte of a name token;
    - a [dict] is an association list in insertion order, updated in place;
    - [print] appends a [line] to the trace, [yield] appends the yielded
      object to the same trace, an exception ends the computation and keeps
      the trace produced so far. *)

From Stdlib Require Import Strings.Byte Strings.String Strings.Ascii.
From Stdlib Require Import NArith ZArith Lia Sorted.
From stdpp Require Import base decidable option list numbers strings.

Open Scope string_scope.
Open Scope list_scope.
Open Scope nat_scope.

Abbreviation bytes := (list byte).

#[global] Instance byte_eq_dec : EqDecision byte := Byte.byte_eq_dec.

(** ** Exceptions and results *)

(** The Python exceptions that occur in this module. [Exception msg] stands
    for every exception that is neither an [IndexError] nor one of the others
    listed; [msg] is its text ([str(e)]). *)
Inductive exn : Type :=
| EOFError
| IndexError
| TypeError
| AttributeError
| Exception (msg : string).

#[global] Instance exn_eq_dec : EqDecision exn.
Proof. solve_decision. Defined.

Inductive result (A : Type) : Type :=
| Ok (a : A)
| Raise (e : exn).
Arguments Ok {A} a.
Arguments Raise {A} e.

(** ** Output lines

    One constructor per [print] call of the module; the comment gives the
    format string. Rendering of record contents ([toout], [b2a_hex],
    [ashex]) belongs to [hexdump] and is not modelled: the line carries the
    bytes that are rendered. *)
Inductive line : Type :=
| WarnDuplicateKey (keyname : string)   (* "WARN: duplicate key: %s" *)
| WarnRefdataTag                        (* "WARN: expected refdata to start with 0x04" *)
| WarnDbinfoTag                         (* "WARN: expected dbinfo to start with 0x03" *)
| RecordBroken (recno : nat) (data : bytes)
                                        (* "Record broken: <i>  -----> <ashex(data)>", on stderr *)
| DatNotFound                           (* ".dat not found" *)
| SkippingEncrypted                     (* "Skipping encrypted CroBank" *)
| Found1d (recno : nat) (data : bytes)  (* "%d -> %s" % (i, b2a_hex(data)) *)
| RecDeleted (recno : nat)              (* "%5d: <deleted>" *)
| RecData (recno : nat) (data : bytes)  (* "%5d: %s" % (i, toout(args, data)) *)
| RecError (recno : nat) (e : exn)      (* "%5d: <%s>" % (i, e) *)
| TableIdStats (nr_recnone nr_recempty : nat)
                                        (* "-- table-id stats --, %d * none, %d * empty" *)
| ByteStats                             (* "-- byte stats --" *)
| StatCount (v k : nat).                (* "%5d * %02x" % (v, k) *)

#[global] Instance line_eq_dec : EqDecision line.
Proof. solve_decision. Defined.

(** An event of a run: a printed line or an object handed to the consumer
    of a generator. *)
Inductive event (Y : Type) : Type :=
| Print (l : line)
| Yield (y : Y).
Arguments Print {Y} l.
Arguments Yield {Y} y.

Definition yields {Y} (tr : list (event Y)) : list Y :=
  omap (fun e => match e with Yield y => Some y | Print _ => None end) tr.

Definition printed {Y} (tr : list (event Y)) : list line :=
  omap (fun e => match e with Print l => Some l | Yield _ => None end) tr.

(** ** The monad of a run

    A computation takes the trace so far and returns its result with the
    extended trace. [None] is reserved for the bounded loop of the decoder
    running out of iterations, which [decode_db_definition_total] excludes. *)
Definition M (Y A : Type) : Type :=
  list (event Y) -> option (result A * list (event Y)).

Definition ret {Y A} (a : A) : M Y A := fun tr => Some (Ok a, tr).

Definition raise {Y A} (e : exn) : M Y A := fun tr => Some (Raise e, tr).

Definition bind {Y A B} (m : M Y A) (k : A -> M Y B) : M Y B := fun tr =>
  match m tr with
  | Some (Ok a, tr') => k a tr'
  | Some (Raise e, tr') => Some (Raise e, tr')
  | None => None
  end.

Definition lift {Y A} (r : result A) : M Y A := fun tr => Some (r, tr).

Definition print {Y} (l : line) : M Y unit := fun tr => Some (Ok tt, tr ++ [Print l]).

Definition yield {Y} (y : Y) : M Y unit := fun tr => Some (Ok tt, tr ++ [Yield y]).

Definition when {Y} (b : bool) (m : M Y unit) : M Y unit := if b then m else ret tt.

Declare Scope run_scope.
Delimit Scope run_scope with run.
Notation "x <- m ;; k" := (bind m (fun x => k))
  (at level 100, m at next level, right associativity) : run_scope.
Notation "m ;; k" := (bind m (fun _ => k))
  (at level 100, right associativity) : run_scope.
Open Scope run_scope.

(** [for x in l: body(x)] *)
Fixpoint for_each {Y A} (l : list A) (body : A -> M Y unit) : M Y unit :=
  match l with
  | [] => ret tt
  | x :: l' => body x ;; for_each l' body
  end.

(** ** Byte strings *)

(** [data[:1] != bytes([tag])] *)
Definition lacks_tag (tag : byte) (data : bytes) : bool :=
  negb (bool_decide (take 1 data = [tag])).

(** [data.find(bytes([b]))]: the least index holding [b], or -1. *)
Fixpoint bytes_find (b : byte) (data : bytes) : Z :=
  match data with
  | [] => (-1)%Z
  | c :: rest =>
      if bool_decide (c = b) then 0%Z
      else let r := bytes_find b rest in
           if (r <? 0)%Z then (-1)%Z else (r + 1)%Z
  end.

(** ** ByteReader *)

Module ByteReader.

(** Modelled from the spec: readers.ByteReader, the byte cursor of
    section 6 ([read_length_prefixed_name], [read_uint32], [read_bytes],
    [at_end]), which is not among the source files. The cursor is the unread
    part of the data. A name is one length byte followed by that many bytes,
    one character per byte; a dword is four bytes, least significant first.
    Reading past the end raises [EOFError]. *)
Definition t : Type := bytes.

(** Modelled from the spec: [at_end]. *)
Definition eof (rd : t) : bool :=
  match rd with [] => true | _ :: _ => false end.

(** Modelled from the spec: reading one byte, the length prefix of a name. *)
Definition readbyte (rd : t) : result (N * t) :=
  match rd with
  | [] => Raise EOFError
  | b :: rd' => Ok (Byte.to_N b, rd')
  end.

(** Modelled from the spec: [read_bytes(n)]. *)
Definition readbytes (n : N) (rd : t) : result (bytes * t) :=
  if (n <=? N.of_nat (length rd))%N
  then Ok (take (N.to_nat n) rd, drop (N.to_nat n) rd)
  else Raise EOFError.

(** Modelled from the spec: [read_uint32]. *)
Definition readdword (rd : t) : result (N * t) :=
  match rd with
  | b0 :: b1 :: b2 :: b3 :: rd' =>
      Ok ((Byte.to_N b0 + 256 * (Byte.to_N b1 + 256 * (Byte.to_N b2 + 256 * Byte.to_N b3)))%N,
          rd')
  | _ => Raise EOFError
  end.

(** Modelled from the spec: [read_length_prefixed_name]. *)
Definition readname (rd : t) : result (string * t) :=
  match readbyte rd with
  | Raise e => Raise e
  | Ok (namelen, rd1) =>
      match readbytes namelen rd1 with
      | Raise e => Raise e
      | Ok (name, rd2) => Ok (string_of_list_byte name, rd2)
      end
  end.

End ByteReader.

(** ** Datafile *)

(** Modelled from the spec: Datafile, the record store of section 6
    ([read_record], [record_count], [encoding_kind]), which is not among the
    source files. [readrec i] returns
    [Ok (Some data)] for a record, [Ok None] for a deleted one, raises
    [IndexError] beyond the physical extent of the store and may raise any
    other exception when the record cannot be decoded. [tadidx_len] is
    [len(self.tadidx)]. *)
Record Datafile : Type := {
  readrec : nat -> result (option bytes);
  tadidx_len : nat;
  encoding : N
}.

(** Modelled from the spec: the slots of a store. A slot holds a record
    with its bytes, a deleted record, or a record whose decoding raises. *)
Inductive slot : Type :=
| Present (data : bytes)
| Deleted
| Unreadable (e : exn).

(** Modelled from the spec: a store laid out as a list of slots, record
    [i] in slot [i - 1]. Record numbers start at 1; 0 and the numbers past
    the last slot are out of range. *)
Definition datafile_of_slots (slots : list slot) : Datafile :=
  {| readrec i :=
       match i with
       | 0 => Raise IndexError
       | S j =>
           match slots !! j with
           | Some (Present data) => Ok (Some data)
           | Some Deleted => Ok None
           | Some (Unreadable e) => Raise e
           | None => Raise IndexError
           end
       end;
     tadidx_len := length slots;
     encoding := 0 |}.

(** ** dict *)

Abbreviation dict := (list (string * bytes)).

(** [keyname in d] *)
Definition dict_mem (keyname : string) (d : dict) : bool :=
  bool_decide (keyname ∈ d.*1).

(** [d[keyname] = v]: an existing key keeps its place and takes the new
    value, a new key goes to the end. *)
Fixpoint dict_set (keyname : string) (v : bytes) (d : dict) : dict :=
  match d with
  | [] => [(keyname, v)]
  | (k, w) :: d' =>
      if bool_decide (k = keyname) then (k, v) :: d'
      else (k, w) :: dict_set keyname v d'
  end.

(** [d[keyname]] *)
Fixpoint dict_get (keyname : string) (d : dict) : option bytes :=
  match d with
  | [] => None
  | (k, w) :: d' => if bool_decide (k = keyname) then Some w else dict_get keyname d'
  end.

(** ** Database *)

(** The four components; [getfile] returns [None] for a missing file. *)
Record Database : Type := {
  stru : option Datafile;
  index : option Datafile;
  bank : option Datafile;
  sys : option Datafile
}.

(** [f.readrec(i)] on a component that may be [None]. *)
Definition call_readrec (f : option Datafile) (i : nat) : result (option bytes) :=
  match f with
  | None => Raise AttributeError
  | Some f => readrec f i
  end.

(** [len(self.bank.tadidx)] *)
Definition nrofrecords (self : Database) : result nat :=
  match bank self with
  | None => Raise AttributeError
  | Some f => Ok (tadidx_len f)
  end.

(** *** decode_db_definition *)

(** The [while not rd.eof()] loop, bounded by [fuel] iterations. Every
    iteration reads at least the length byte of a name, so [length data]
    iterations are enough ([decode_loop_fuel]). *)
Fixpoint decode_loop {Y} (fuel : nat) (self : Database) (rd : ByteReader.t) (d : dict)
  : M Y dict :=
  if ByteReader.eof rd then ret d
  else match fuel with
  | 0 => fun _ => None
  | S fuel =>
      r <- lift (ByteReader.readname rd) ;;
      let '(keyname, rd) := r in
      when (dict_mem keyname d) (print (WarnDuplicateKey keyname)) ;;
      r <- lift (ByteReader.readdword rd) ;;
      let '(index_or_length, rd) := r in
      if negb (N.shiftr index_or_length 31 =? 0)%N then
        r <- lift (ByteReader.readbytes (N.land index_or_length 0x7FFFFFFF) rd) ;;
        let '(v, rd) := r in
        decode_loop fuel self rd (dict_set keyname v d)
      else
        refdata <- lift (call_readrec (stru self) (N.to_nat index_or_length)) ;;
        match refdata with
        | None => raise TypeError
        | Some refdata =>
            when (lacks_tag x04 refdata) (print WarnRefdataTag) ;;
            decode_loop fuel self rd (dict_set keyname (drop 1 refdata) d)
        end
  end.

Definition decode_db_definition {Y} (self : Database) (data : bytes) : M Y dict :=
  decode_loop (length data) self data [].

(** *** recdump *)

Module Args.
(** The options of the command line that [recdump] reads. *)
Record t : Type := {
  index : bool;
  sys : bool;
  stru : bool;
  skipencrypted : bool;
  maxrecs : Z;
  find1d : bool;
  stats : bool;
  debug : bool
}.
End Args.

(** The local variables of [recdump] that the loop updates. *)
Record locals : Type := {
  nerr : nat;
  nr_recnone : nat;
  nr_recempty : nat;
  tabidxref : list nat;
  bytexref : list nat
}.

Definition locals_init : locals :=
  {| nerr := 0; nr_recnone := 0; nr_recempty := 0;
     tabidxref := replicate 256 0; bytexref := replicate 256 0 |}.

Definition set_nerr (n : nat) (st : locals) : locals :=
  {| nerr := n; nr_recnone := nr_recnone st; nr_recempty := nr_recempty st;
     tabidxref := tabidxref st; bytexref := bytexref st |}.

(** [data and (data.find(b"\x1d") > 0 or data.find(b"\x1b") > 0)] *)
Definition find1d_hit (data : option bytes) : bool :=
  match data with
  | None | Some [] => false
  | Some data => (0 <? bytes_find x1d data)%Z || (0 <? bytes_find x1b data)%Z
  end.

(** [for b in data: bytexref[b] += 1] *)
Definition count_bytes (data : bytes) (xref : list nat) : list nat :=
  foldl (fun xref b => alter S (Byte.to_nat b) xref) xref data.

(** The statistics branch of the loop body. *)
Definition count_record (data : option bytes) (st : locals) : locals :=
  match data with
  | None =>
      {| nerr := nerr st; nr_recnone := nr_recnone st + 1; nr_recempty := nr_recempty st;
         tabidxref := tabidxref st; bytexref := bytexref st |}
  | Some [] =>
      {| nerr := nerr st; nr_recnone := nr_recnone st; nr_recempty := nr_recempty st + 1;
         tabidxref := tabidxref st; bytexref := bytexref st |}
  | Some (b0 :: rest) =>
      {| nerr := nerr st; nr_recnone := nr_recnone st; nr_recempty := nr_recempty st;
         tabidxref := alter S (Byte.to_nat b0) (tabidxref st);
         bytexref := count_bytes rest (bytexref st) |}
  end.

Inductive flow : Type := Continue | Break.

(** One iteration of [for i in range(1, args.maxrecs + 1)]: the [try] block
    and its two handlers. In the [try] block only [readrec] raises. *)
Definition recdump_iter {Y} (args : Args.t) (dbfile : Datafile) (i : nat) (st : locals)
  : M Y (flow * locals) :=
  match readrec dbfile i with
  | Ok data =>
      if Args.find1d args then
        if find1d_hit data then
          print (Found1d i (default [] data)) ;; ret (Break, st)
        else ret (Continue, set_nerr 0 st)
      else if negb (Args.stats args) then
        print (match data with
               | None => RecDeleted i
               | Some data => RecData i data
               end) ;;
        ret (Continue, set_nerr 0 st)
      else ret (Continue, set_nerr 0 (count_record data st))
  | Raise IndexError => ret (Break, st)
  | Raise e =>
      print (RecError i e) ;;
      if Args.debug args then raise e
      else
        let st := set_nerr (nerr st + 1) st in
        if 5 <? nerr st then ret (Break, st) else ret (Continue, st)
  end.

Fixpoint recdump_loop {Y} (args : Args.t) (dbfile : Datafile) (idxs : list nat) (st : locals)
  : M Y locals :=
  match idxs with
  | [] => ret st
  | i :: idxs =>
      r <- recdump_iter args dbfile i st ;;
      match r with
      | (Continue, st) => recdump_loop args dbfile idxs st
      | (Break, st) => ret st
      end
  end.

(** [for k, v in enumerate(xref): if v: print("%5d * %02x" % (v, k))] *)
Definition print_xref {Y} (xref : list nat) : M Y unit :=
  for_each (imap (fun k v => (k, v)) xref)
    (fun kv => when (negb (kv.2 =? 0)) (print (StatCount kv.2 kv.1))).

Definition recdump {Y} (self : Database) (args : Args.t) : M Y unit :=
  let dbfile :=
    if Args.index args then index self
    else if Args.sys args then sys self
    else if Args.stru args then stru self
    else bank self in
  match dbfile with
  | None => print DatNotFound
  | Some dbfile =>
      if Args.skipencrypted args && (encoding dbfile =? 3)%N then print SkippingEncrypted
      else
        st <- recdump_loop args dbfile (seq 1 (Z.to_nat (Args.maxrecs args))) locals_init ;;
        when (Args.stats args)
          (print (TableIdStats (nr_recnone st) (nr_recempty st)) ;;
           print_xref (tabidxref st) ;;
           print ByteStats ;;
           print_xref (bytexref st))
  end.

(** ** Tables and records *)

(** [s[n:]] for a [str] *)
Fixpoint str_from (n : nat) (s : string) : string :=
  match n, s with
  | 0, _ => s
  | S n, String _ s' => str_from n s'
  | S _, EmptyString => EmptyString
  end.

Section Enumerate.

(** [TableDefinition] and [Record] are classes of other modules. Of a
    table definition the sweeps read [tableid] and [fields]; both
    constructors may raise. [isnumeric] is [str.isnumeric]. *)
Context {TableDefinition Fields Record : Type}.
Variable TableDefinition_init : bytes -> result TableDefinition.
Variable tableid : TableDefinition -> N.
Variable fields : TableDefinition -> Fields.
Variable Record_init : nat -> Fields -> bytes -> result Record.
Variable isnumeric : string -> bool.

(** *** enumerate_tables *)

(** The body of [for k, v in dbdef.items()]. *)
Definition enumerate_tables_iter (files : bool) (kv : string * bytes)
  : M TableDefinition unit :=
  let '(k, v) := kv in
  if String.prefix "Base" k && isnumeric (str_from 4 k) then
    when (files && String.eqb (str_from 4 k) "000")
      (t <- lift (TableDefinition_init v) ;; yield t) ;;
    when (negb files && negb (String.eqb (str_from 4 k) "000"))
      (t <- lift (TableDefinition_init v) ;; yield t)
  else ret tt.

Definition enumerate_tables (self : Database) (files : bool) : M TableDefinition unit :=
  dbinfo <- lift (call_readrec (stru self) 1) ;;
  match dbinfo with
  | None => raise TypeError
  | Some dbinfo =>
      when (lacks_tag x03 dbinfo) (print WarnDbinfoTag) ;;
      dbdef <- decode_db_definition self (drop 1 dbinfo) ;;
      for_each dbdef (enumerate_tables_iter files)
  end.

(** The keys of the entries that the loop of [enumerate_tables] turns into
    a table definition. *)
Definition wanted (files : bool) (k : string) : bool :=
  String.prefix "Base" k && isnumeric (str_from 4 k) &&
  (if files then String.eqb (str_from 4 k) "000" else negb (String.eqb (str_from 4 k) "000")).

(** ['Base' followed by a numeric suffix], the suffix "000" exactly when
    files are asked for. *)
Definition table_key (files : bool) (k : string) : Prop :=
  exists sfx, k = "Base" +:+ sfx /\ isnumeric sfx = true /\
              (files = true -> sfx = "000") /\ (files = false -> sfx <> "000").

(** *** enumerate_records *)

(** The body of [for i in range(self.nrofrecords())]; [recno] is [i + 1].
    [data and data[0] == table.tableid] holds for a record with a first
    byte [b0] equal to the table id; then [data[1:]] is [rest]. *)
Definition enumerate_records_iter (self : Database) (table : TableDefinition) (recno : nat)
  : M Record unit :=
  data <- lift (call_readrec (bank self) recno) ;;
  match data with
  | Some (b0 :: rest) =>
      if (Byte.to_N b0 =? tableid table)%N then
        match Record_init recno (fields table) rest with
        | Ok rec => yield rec
        | Raise e => print (RecordBroken recno (b0 :: rest))
        end
      else ret tt
  | Some [] | None => ret tt
  end.

Definition enumerate_records (self : Database) (table : TableDefinition) : M Record unit :=
  n <- lift (nrofrecords self) ;;
  for_each (seq 1 n) (enumerate_records_iter self table).

(** *** enumerate_files *)

Definition enumerate_files_iter (self : Database) (table : TableDefinition) (recno : nat)
  : M (nat * bytes) unit :=
  data <- lift (call_readrec (bank self) recno) ;;
  match data with
  | Some (b0 :: rest) =>
      if (Byte.to_N b0 =? tableid table)%N then yield (recno, rest) else ret tt
  | Some [] | None => ret tt
  end.

Definition enumerate_files (self : Database) (table : TableDefinition)
  : M (nat * bytes) unit :=
  n <- lift (nrofrecords self) ;;
  for_each (seq 1 n) (enumerate_files_iter self table).

(** *** Vocabulary of the statements about the sweeps *)

(** The record [i] of the bank, when it is present and starts with the id
    of [table]. *)
Definition hit_at (bankf : Datafile) (table : TableDefinition) (i : nat)
  : option (nat * bytes) :=
  match readrec bankf i with
  | Ok (Some (b0 :: rest)) =>
      if (Byte.to_N b0 =? tableid table)%N then Some (i, b0 :: rest) else None
  | _ => None
  end.

(** What the sweep does with such a record: the decoded record is yielded,
    or the record is reported with its number and its bytes. *)
Definition record_events (table : TableDefinition) (hit : nat * bytes)
  : list (event Record) :=
  match Record_init hit.1 (fields table) (drop 1 hit.2) with
  | Ok rec => [Yield rec]
  | Raise _ => [Print (RecordBroken hit.1 hit.2)]
  end.

End Enumerate.

(** ** The wire format, written out

    The encoder that is inverse to [decode_db_definition] on inline
    entries. It follows the data model of the specification: a name token,
    then a dword whose top bit is set and whose low 31 bits are the length
    of the value, then the value. *)

Definition byte_of_N (n : N) : byte := default x00 (Byte.of_N (n mod 256)).

Definition le32 (w : N) : bytes :=
  [byte_of_N w; byte_of_N (w / 256); byte_of_N (w / 65536); byte_of_N (w / 16777216)].

Definition encode_name (keyname : string) : bytes :=
  byte_of_N (N.of_nat (String.length keyname)) :: list_byte_of_string keyname.

(** The two kinds of entry: the value follows the descriptor, or the
    descriptor is the number of the record that holds the value. *)
Inductive entry : Type :=
| Inline (v : bytes)
| Reference (recno : N).

Definition encode_entry (ke : string * entry) : bytes :=
  encode_name ke.1 ++
  match ke.2 with
  | Inline v => le32 (2 ^ 31 + N.of_nat (length v)) ++ v
  | Reference recno => le32 recno
  end.

Definition encode_entries (es : list (string * entry)) : bytes :=
  es ≫= encode_entry.

(** Re-encoding of a decoded mapping, every value as an inline entry. *)
Definition encode_db_definition (d : dict) : bytes :=
  encode_entries (prod_map id Inline <$> d).

(** The value an entry decodes to: the inline bytes, or the referenced
    record without its first byte. *)
Definition entry_value (self : Database) (e : entry) : option bytes :=
  match e with
  | Inline v => Some v
  | Reference recno =>
      match call_readrec (stru self) (N.to_nat recno) with
      | Ok (Some refdata) => Some (drop 1 refdata)
      | Ok None | Raise _ => None
      end
  end.

(** The warning that decoding the value of an entry prints. *)
Definition entry_lines (self : Database) (e : entry) : list line :=
  match e with
  | Inline _ => []
  | Reference recno =>
      match call_readrec (stru self) (N.to_nat recno) with
      | Ok (Some refdata) => if lacks_tag x04 refdata then [WarnRefdataTag] else []
      | Ok None | Raise _ => []
      end
  end.

(** An entry that fits the format and whose value can be resolved. *)
Definition entry_ok (self : Database) (ke : string * entry) : Prop :=
  String.length ke.1 < 256 /\
  match ke.2 with
  | Inline v => (N.of_nat (length v) < 2 ^ 31)%N
  | Reference recno => (recno < 2 ^ 31)%N /\ is_Some (entry_value self (Reference recno))
  end.

(** The mapping and the warnings that a list of entries gives, entry by
    entry, starting from the mapping [d]. *)
Fixpoint decode_entries (self : Database) (es : list (string * entry)) (d : dict)
  : dict * list line :=
  match es with
  | [] => (d, [])
  | (k, e) :: es =>
      let r := decode_entries self es (dict_set k (default [] (entry_value self e)) d) in
      (r.1, (if dict_mem k d then [WarnDuplicateKey k] else []) ++ entry_lines self e ++ r.2)
  end.

(** ** Stand-ins for the classes of other modules

    Used to run the generators on concrete databases. *)

Module Example.

(** [str.isnumeric] on a name of ASCII characters: not empty, decimal
    digits only. *)
Definition is_digit (c : ascii) : bool :=
  (48 <=? nat_of_ascii c) && (nat_of_ascii c <=? 57).

Fixpoint all_digits (s : string) : bool :=
  match s with
  | EmptyString => true
  | String c s' => is_digit c && all_digits s'
  end.

Definition isnumeric (s : string) : bool :=
  match s with
  | EmptyString => false
  | String _ _ => all_digits s
  end.

(** A table definition that keeps the definition blob; its id is the first
    byte of the blob. An empty blob is refused. *)
Record table : Type := { tableid : N; fields : bytes }.

Definition TableDefinition_init (v : bytes) : result table :=
  match v with
  | [] => Raise (Exception "empty table definition")
  | b :: _ => Ok {| tableid := Byte.to_N b; fields := v |}
  end.

(** A record that keeps its number and its undecoded payload. A payload
    that starts with 0xff is refused. *)
Record record : Type := { recno : nat; payload : bytes }.

Definition Record_init (recno : nat) (fields : bytes) (data : bytes) : result record :=
  match data with
  | xff :: _ => Raise (Exception "broken record")
  | _ => Ok {| recno := recno; payload := data |}
  end.

(** A database with a structure file and a bank. *)
Definition database (stru_slots bank_slots : list slot) : Database :=
  {| stru := Some (datafile_of_slots stru_slots); index := None;
     bank := Some (datafile_of_slots bank_slots); sys := None |}.

(** The options of a raw sweep over the bank. *)
Definition args (maxrecs : Z) (find1d stats debug : bool) : Args.t :=
  {| Args.index := false; Args.sys := false; Args.stru := false;
     Args.skipencrypted := false; Args.maxrecs := maxrecs;
     Args.find1d := find1d; Args.stats := stats; Args.debug := debug |}.

(** Five records that cannot be read, then one that can. *)
Definition five_broken : list slot :=
  replicate 5 (Unreadable (Exception "bad record")) ++ [Present [x41]].

End Example.

(** ** Vocabulary of the statements *)

(** The store [f] with the outcome of reading record [j] replaced. *)
Definition with_record (f : Datafile) (j : nat) (r : result (option bytes)) : Datafile :=
  {| readrec i := if decide (i = j) then r else readrec f i;
     tadidx_len := tadidx_len f;
     encoding := encoding f |}.

(** The database [self] with another bank. *)
Definition with_bank (self : Database) (f : Datafile) : Database :=
  {| stru := stru self; index := index self; bank := Some f; sys := sys self |}.

(** The first occurrence of [b] in [data] is at offset [k]. *)
Definition first_at (b : byte) (data : bytes) (k : nat) : Prop :=
  data !! k = Some b /\ forall j, j < k -> data !! j <> Some b.

(** The lines that the raw sweep prints for the records of [idxs] whose
    read raises. *)
Definition failure_lines (dbfile : Datafile) (idxs : list nat) : list line :=
  omap (fun i => match readrec dbfile i with
                 | Raise e => Some (RecError i e)
                 | Ok _ => None
                 end) idxs.

(** One of the two markers occurs in [data], and its first occurrence is
    past the first byte. *)
Definition marker_first_nonzero (data : bytes) : Prop :=
  exists k, 0 < k /\ (first_at x1d data k \/ first_at x1b data k).

(** The lines that [print_xref] prints: one for every bucket that is not
    zero, in ascending order of bucket. *)
Definition xref_lines (xref : list nat) : list line :=
  omap (fun kv => if kv.2 =? 0 then None else Some (StatCount kv.2 kv.1))
       (imap (fun k v => (k, v)) xref).

(** The line is a duplicate-key warning. *)
Definition is_duplicate_warning (l : line) : bool :=
  match l with
  | WarnDuplicateKey _ => true
  | _ => false
  end.

(** The test of [enumerate_tables] and [dump_db_table_defs] on a key:
    [k.startswith("Base") and k[4:].isnumeric()]. *)
Definition base_numeric (isnumeric : string -> bool) (k : string) : bool :=
  String.prefix "Base" k && isnumeric (str_from 4 k).

(** The line that the raw sweep prints for record [i] in printing mode. *)
Definition slot_line (i : nat) (sl : slot) : line :=
  match sl with
  | Present data => RecData i data
  | Deleted => RecDeleted i
  | Unreadable e => RecError i e
  end.

(** The slot holds a record whose read raises. *)
Definition is_unreadable (sl : slot) : bool :=
  match sl with
  | Unreadable _ => true
  | Present _ | Deleted => false
  end.

(** The number of bytes of a slot that the statistics count in
    [bytexref]: those after the first byte of a record. *)
Definition slot_payload_length (sl : slot) : nat :=
  match sl with
  | Present (_ :: rest) => length rest
  | Present [] | Deleted | Unreadable _ => 0
  end.

(** The file that [recdump] sweeps. *)
Definition selected_file (self : Database) (args : Args.t) : option Datafile :=
  if Args.index args then index self
  else if Args.sys args then sys self
  else if Args.stru args then stru self
  else bank self.

(** The options [args] with another [maxrecs]. *)
Definition with_maxrecs (maxrecs : Z) (args : Args.t) : Args.t :=
  {| Args.index := Args.index args; Args.sys := Args.sys args; Args.stru := Args.stru args;
     Args.skipencrypted := Args.skipencrypted args; Args.maxrecs := maxrecs;
     Args.find1d := Args.find1d args; Args.stats := Args.stats args;
     Args.debug := Args.debug args |}.

#[global] Instance slot_eq_dec : EqDecision slot.
Proof. solve_decision. Defined.

(** The line reports a record whose read raised. *)
Definition is_error_line (l : line) : bool :=
  match l with
  | RecError _ _ => true
  | _ => false
  end.

(** The line reports the record at which the pattern scan stopped. *)
Definition is_found_line (l : line) : bool :=
  match l with
  | Found1d _ _ => true
  | _ => false
  end.

(** * Properties *)

(** ** ByteReader *)

Lemma byte_of_N_to_N (n : N) : Byte.to_N (byte_of_N n) = (n mod 256)%N.
Proof.
  unfold byte_of_N.
  destruct (Byte.of_N (n mod 256)) as [b|] eqn:E.
  - by apply Byte.to_of_N.
  - apply Byte.of_N_None_iff in E.
    pose proof (N.mod_upper_bound n 256). lia.
Qed.

Lemma byte_of_N_of_to_N (b : byte) : byte_of_N (Byte.to_N b) = b.
Proof.
  unfold byte_of_N. rewrite N.mod_small.
  - by rewrite Byte.of_to_N.
  - pose proof (Byte.to_N_bounded b). lia.
Qed.

Lemma le32_sum (w : N) :
  (w < 2 ^ 32)%N ->
  (w mod 256 + 256 * ((w / 256) mod 256 + 256 * ((w / 65536) mod 256
     + 256 * ((w / 16777216) mod 256))))%N = w.
Proof.
  intros Hw. change (2 ^ 32)%N with 4294967296%N in Hw.
  change 65536%N with (256 * 256)%N. change 16777216%N with (256 * (256 * 256))%N.
  rewrite <- !N.Div0.div_div.
  pose proof (N.div_mod' w 256).
  pose proof (N.div_mod' (w / 256) 256).
  pose proof (N.div_mod' (w / 256 / 256) 256).
  pose proof (N.div_mod' (w / 256 / 256 / 256) 256).
  assert (w / 256 / 256 / 256 / 256 = 0)%N.
  { rewrite !N.Div0.div_div. apply N.div_small. lia. }
  lia.
Qed.

Lemma readdword_le32 (w : N) (rest : bytes) :
  (w < 2 ^ 32)%N -> ByteReader.readdword (le32 w ++ rest) = Ok (w, rest).
Proof.
  intros Hw. unfold le32. cbn [app ByteReader.readdword].
  rewrite !byte_of_N_to_N. by rewrite le32_sum.
Qed.

Lemma length_list_byte_of_string (s : string) :
  length (list_byte_of_string s) = String.length s.
Proof.
  unfold list_byte_of_string. rewrite length_map.
  induction s as [|c s IH]; simpl; [done | by rewrite IH].
Qed.

Lemma readbytes_app (v rest : bytes) :
  ByteReader.readbytes (N.of_nat (length v)) (v ++ rest) = Ok (v, rest).
Proof.
  unfold ByteReader.readbytes. rewrite Nat2N.id, length_app.
  destruct (N.leb_spec (N.of_nat (length v)) (N.of_nat (length v + length rest))); [|lia].
  by rewrite take_app_length, drop_app_length.
Qed.

Lemma readname_encode_name (keyname : string) (rest : bytes) :
  String.length keyname < 256 ->
  ByteReader.readname (encode_name keyname ++ rest) = Ok (keyname, rest).
Proof.
  intros Hlen. unfold ByteReader.readname, encode_name. cbn [app ByteReader.readbyte].
  rewrite byte_of_N_to_N, N.mod_small by lia.
  rewrite <- length_list_byte_of_string, readbytes_app.
  by rewrite string_of_list_byte_of_string.
Qed.

Lemma eof_encode_name (keyname : string) (rest : bytes) :
  ByteReader.eof (encode_name keyname ++ rest) = false.
Proof. done. Qed.

Lemma readbytes_shorter (n : N) (rd rd' : ByteReader.t) (v : bytes) :
  ByteReader.readbytes n rd = Ok (v, rd') -> length rd' <= length rd.
Proof.
  unfold ByteReader.readbytes. case_match; [|done].
  intros [= <- <-]. rewrite length_drop. lia.
Qed.

Lemma readdword_shorter (rd rd' : ByteReader.t) (w : N) :
  ByteReader.readdword rd = Ok (w, rd') -> length rd' <= length rd.
Proof.
  destruct rd as [|b0 [|b1 [|b2 [|b3 rd]]]]; simpl; try done.
  intros [= <- <-]. lia.
Qed.

Lemma readname_shorter (rd rd' : ByteReader.t) (keyname : string) :
  ByteReader.readname rd = Ok (keyname, rd') -> length rd' < length rd.
Proof.
  unfold ByteReader.readname. destruct rd as [|b rd]; simpl; [done|].
  destruct (ByteReader.readbytes _ rd) as [[name rd2]|] eqn:E; [|done].
  intros [= <- <-]. apply readbytes_shorter in E. lia.
Qed.

(** ** The monad *)

Lemma printed_Print {Y} (ls : list line) : printed (Y := Y) (Print <$> ls) = ls.
Proof. induction ls as [|l ls IH]; [done|]. rewrite fmap_cons. by rewrite <- IH at 2. Qed.

Lemma yields_Yield {Y} (ts : list Y) : yields (Yield <$> ts) = ts.
Proof. induction ts as [|t ts IH]; [done|]. rewrite fmap_cons. by rewrite <- IH at 2. Qed.

Lemma yields_app {Y} (tr1 tr2 : list (event Y)) : yields (tr1 ++ tr2) = yields tr1 ++ yields tr2.
Proof. apply omap_app. Qed.

Lemma filter_none {A} (P : A -> Prop) `{!forall x, Decision (P x)} (l : list A) :
  (forall x, x ∈ l -> ~ P x) -> filter P l = [].
Proof.
  induction l as [|x l IH]; intros Hl; [done|].
  rewrite filter_cons_False by (apply Hl; by left).
  apply IH. intros y Hy. apply Hl. by right.
Qed.

(** ** dict *)

Lemma dict_mem_true (k : string) (d : dict) : dict_mem k d = true <-> k ∈ d.*1.
Proof. unfold dict_mem. by rewrite bool_decide_eq_true. Qed.

Lemma dict_mem_false (k : string) (d : dict) : dict_mem k d = false <-> k ∉ d.*1.
Proof. unfold dict_mem. by rewrite bool_decide_eq_false. Qed.

Lemma dict_set_fresh (k : string) (v : bytes) (d : dict) :
  k ∉ d.*1 -> dict_set k v d = d ++ [(k, v)].
Proof.
  induction d as [|[k' w] d IH]; intros Hk; simpl; [done|].
  rewrite fmap_cons, not_elem_of_cons in Hk. destruct Hk as [Hne Hk].
  rewrite bool_decide_eq_false_2 by done. by rewrite IH.
Qed.

Lemma dict_set_keys (k : string) (v : bytes) (d : dict) :
  (dict_set k v d).*1 = if dict_mem k d then d.*1 else d.*1 ++ [k].
Proof.
  destruct (dict_mem k d) eqn:E.
  - apply dict_mem_true in E.
    induction d as [|[k' w] d IH]; [by apply elem_of_nil in E|].
    simpl. destruct (decide (k' = k)) as [->|Hne].
    + by rewrite bool_decide_eq_true_2.
    + rewrite bool_decide_eq_false_2 by done. rewrite !fmap_cons. f_equal.
      apply IH. rewrite fmap_cons, elem_of_cons in E. by destruct E as [->|].
  - apply dict_mem_false in E. by rewrite dict_set_fresh, fmap_app.
Qed.

Lemma dict_set_elem_of (k k' : string) (v : bytes) (d : dict) :
  k' ∈ (dict_set k v d).*1 <-> k' = k \/ k' ∈ d.*1.
Proof.
  rewrite dict_set_keys. destruct (dict_mem k d) eqn:E.
  - apply dict_mem_true in E. split; [by right|]. by intros [->|].
  - rewrite elem_of_app, list_elem_of_singleton. tauto.
Qed.

Lemma dict_set_NoDup (k : string) (v : bytes) (d : dict) :
  NoDup d.*1 -> NoDup (dict_set k v d).*1.
Proof.
  intros Hd. rewrite dict_set_keys. destruct (dict_mem k d) eqn:E; [done|].
  apply dict_mem_false in E. apply NoDup_app. split_and!; [done| |apply NoDup_singleton].
  by intros x Hx ->%list_elem_of_singleton.
Qed.

Lemma dict_get_set_eq (k : string) (v : bytes) (d : dict) :
  dict_get k (dict_set k v d) = Some v.
Proof.
  induction d as [|[k' w] d IH]; simpl.
  - by rewrite bool_decide_eq_true_2.
  - destruct (decide (k' = k)) as [->|Hne].
    + rewrite bool_decide_eq_true_2 by done. simpl. by rewrite bool_decide_eq_true_2.
    + rewrite bool_decide_eq_false_2 by done. simpl. by rewrite bool_decide_eq_false_2.
Qed.

Lemma dict_get_set_ne (k k' : string) (v : bytes) (d : dict) :
  k <> k' -> dict_get k' (dict_set k v d) = dict_get k' d.
Proof.
  intros Hne. induction d as [|[k'' w] d IH]; simpl.
  - by rewrite bool_decide_eq_false_2.
  - destruct (decide (k'' = k)) as [->|Hne'].
    + rewrite bool_decide_eq_true_2 by done. simpl. by rewrite !bool_decide_eq_false_2.
    + rewrite bool_decide_eq_false_2 by done. simpl. by rewrite IH.
Qed.

(** With distinct keys, the key that [dict_get] finds has one entry. *)
Lemma dict_get_unique (k : string) (v : bytes) (d : dict) :
  NoDup d.*1 -> dict_get k d = Some v -> filter (fun kv => kv.1 = k) d = [(k, v)].
Proof.
  induction d as [|[k' w] d IH]; intros Hnd Hget; [done|].
  rewrite fmap_cons in Hnd. apply NoDup_cons in Hnd as [Hk' Hnd]. simpl in Hget, Hk'.
  destruct (decide (k' = k)) as [->|Hne].
  - rewrite bool_decide_eq_true_2 in Hget by done. injection Hget as ->.
    rewrite filter_cons_True by done. f_equal.
    apply filter_none. intros [k'' w] Hin Heq. simpl in Heq. subst k''.
    apply Hk'. apply list_elem_of_fmap. by exists (k, w).
  - rewrite bool_decide_eq_false_2 in Hget by done.
    rewrite filter_cons_False by done. by apply IH.
Qed.

(** ** decode_db_definition *)

Section Decode.

Context {Y : Type}.
Variable self : Database.

(** The loop body, written out case by case. *)
Lemma decode_loop_unfold (fuel : nat) (rd : ByteReader.t) (d : dict) (tr : list (event Y)) :
  decode_loop (S fuel) self rd d tr =
  if ByteReader.eof rd then Some (Ok d, tr)
  else match ByteReader.readname rd with
  | Raise e => Some (Raise e, tr)
  | Ok (keyname, rd1) =>
      let tr1 := if dict_mem keyname d then tr ++ [Print (WarnDuplicateKey keyname)] else tr in
      match ByteReader.readdword rd1 with
      | Raise e => Some (Raise e, tr1)
      | Ok (index_or_length, rd2) =>
          if negb (N.shiftr index_or_length 31 =? 0)%N then
            match ByteReader.readbytes (N.land index_or_length 0x7FFFFFFF) rd2 with
            | Raise e => Some (Raise e, tr1)
            | Ok (v, rd3) => decode_loop fuel self rd3 (dict_set keyname v d) tr1
            end
          else
            match call_readrec (stru self) (N.to_nat index_or_length) with
            | Raise e => Some (Raise e, tr1)
            | Ok None => Some (Raise TypeError, tr1)
            | Ok (Some refdata) =>
                decode_loop fuel self rd2 (dict_set keyname (drop 1 refdata) d)
                  (if lacks_tag x04 refdata then tr1 ++ [Print WarnRefdataTag] else tr1)
            end
      end
  end.
Proof.
  cbn [decode_loop]. destruct (ByteReader.eof rd); [done|].
  unfold bind, lift, when, print, ret, raise.
  destruct (ByteReader.readname rd) as [[keyname rd1]|e]; [|done].
  destruct (dict_mem keyname d);
    (destruct (ByteReader.readdword rd1) as [[w rd2]|e]; [|done]);
    (destruct (negb (N.shiftr w 31 =? 0)%N);
     [ destruct (ByteReader.readbytes _ rd2) as [[v rd3]|e]; done
     | destruct (call_readrec _ _) as [[refdata|]|e]; try done;
       destruct (lacks_tag x04 refdata); done ]).
Qed.

(** Iterations beyond the number of unread bytes are never used. *)
Lemma decode_loop_fuel (fuel1 fuel2 : nat) (rd : ByteReader.t) (d : dict)
  (tr : list (event Y)) :
  length rd <= fuel1 -> length rd <= fuel2 ->
  decode_loop fuel1 self rd d tr = decode_loop fuel2 self rd d tr.
Proof.
  revert fuel2 rd d tr.
  induction fuel1 as [|fuel1 IH]; intros fuel2 rd d tr H1 H2.
  { destruct rd; [|simpl in H1; lia]. by destruct fuel2. }
  destruct fuel2 as [|fuel2].
  { destruct rd; [done | simpl in H2; lia]. }
  rewrite !decode_loop_unfold.
  destruct (ByteReader.eof rd); [done|].
  destruct (ByteReader.readname rd) as [[keyname rd1]|e] eqn:E1; [|done].
  apply readname_shorter in E1. cbn zeta.
  destruct (ByteReader.readdword rd1) as [[w rd2]|e] eqn:E2; [|done].
  apply readdword_shorter in E2.
  destruct (negb (N.shiftr w 31 =? 0)%N).
  - destruct (ByteReader.readbytes _ rd2) as [[v rd3]|e] eqn:E3; [|done].
    apply readbytes_shorter in E3. apply IH; lia.
  - destruct (call_readrec _ _) as [[refdata|]|e]; try done.
    apply IH; lia.
Qed.

(** The loop never runs out of iterations. *)
Lemma decode_loop_total (fuel : nat) (rd : ByteReader.t) (d : dict) (tr : list (event Y)) :
  length rd <= fuel -> is_Some (decode_loop fuel self rd d tr).
Proof.
  revert rd d tr. induction fuel as [|fuel IH]; intros rd d tr Hf.
  { destruct rd; [by eexists | simpl in Hf; lia]. }
  rewrite decode_loop_unfold.
  destruct (ByteReader.eof rd); [by eexists|].
  destruct (ByteReader.readname rd) as [[keyname rd1]|e] eqn:E1; [|by eexists].
  apply readname_shorter in E1. cbn zeta.
  destruct (ByteReader.readdword rd1) as [[w rd2]|e] eqn:E2; [|by eexists].
  apply readdword_shorter in E2.
  destruct (negb (N.shiftr w 31 =? 0)%N).
  - destruct (ByteReader.readbytes _ rd2) as [[v rd3]|e] eqn:E3; [|by eexists].
    apply readbytes_shorter in E3. apply IH; lia.
  - destruct (call_readrec _ _) as [[refdata|]|e]; try by eexists.
    apply IH; lia.
Qed.

Lemma decode_db_definition_total (data : bytes) (tr : list (event Y)) :
  is_Some (decode_db_definition self data tr).
Proof. by apply decode_loop_total. Qed.

Lemma encode_entry_length (ke : string * entry) : 5 <= length (encode_entry ke).
Proof.
  destruct ke as [k e]. unfold encode_entry, encode_name. simpl.
  rewrite length_app. destruct e; simpl; lia.
Qed.

(** Decoding one well-formed entry at the cursor. *)
Lemma decode_loop_entry (fuel : nat) (ke : string * entry) (rest : bytes) (d : dict)
  (tr : list (event Y)) :
  entry_ok self ke ->
  length (encode_entry ke ++ rest) <= fuel ->
  decode_loop fuel self (encode_entry ke ++ rest) d tr =
  decode_loop (length rest) self rest
    (dict_set ke.1 (default [] (entry_value self ke.2)) d)
    (tr ++ (if dict_mem ke.1 d then [Print (WarnDuplicateKey ke.1)] else [])
        ++ (Print <$> entry_lines self ke.2)).
Proof.
  destruct ke as [k e]. intros [Hk He] Hf. cbn [fst snd] in *.
  destruct fuel as [|fuel].
  { pose proof (encode_entry_length (k, e)). rewrite length_app in Hf. lia. }
  rewrite decode_loop_unfold. unfold encode_entry in *. cbn [fst snd] in *.
  rewrite <- app_assoc, eof_encode_name, readname_encode_name by done. cbn zeta.
  assert (Htr : (if dict_mem k d then tr ++ [Print (WarnDuplicateKey k)] else tr)
                = tr ++ (if dict_mem k d then [@Print Y (WarnDuplicateKey k)] else [])).
  { destruct (dict_mem k d); [done | by rewrite app_nil_r]. }
  rewrite Htr. clear Htr.
  rewrite !length_app in Hf.
  change (2 ^ 31)%N with 2147483648%N in *.
  destruct e as [v|recno].
  - rewrite <- app_assoc, readdword_le32 by (change (2 ^ 32)%N with 4294967296%N; lia).
    rewrite N.shiftr_div_pow2. change (2 ^ 31)%N with 2147483648%N.
    replace ((2147483648 + N.of_nat (length v)) / 2147483648)%N with 1%N
      by (apply N.div_unique with (N.of_nat (length v)); lia).
    cbn [N.eqb negb].
    change 0x7FFFFFFF%N with (N.ones 31). rewrite N.land_ones.
    change (2 ^ 31)%N with 2147483648%N.
    replace ((2147483648 + N.of_nat (length v)) mod 2147483648)%N with (N.of_nat (length v))
      by (apply N.mod_unique with 1%N; lia).
    rewrite readbytes_app. cbn [entry_value entry_lines default fmap list_fmap].
    rewrite app_nil_r. unfold id.
    apply decode_loop_fuel; [|done].
    rewrite length_app in Hf. cbn [encode_name le32 length] in Hf. lia.
  - destruct He as [Hr [v Hv]].
    rewrite readdword_le32 by (change (2 ^ 32)%N with 4294967296%N; lia).
    rewrite N.shiftr_div_pow2, N.div_small by (change (2 ^ 31)%N with 2147483648%N; lia).
    cbn [N.eqb negb entry_value entry_lines] in Hv |- *.
    destruct (call_readrec (stru self) (N.to_nat recno)) as [[refdata|]|e]; try done.
    cbn [default]. unfold id. cbn [encode_name le32 length] in Hf.
    rewrite (decode_loop_fuel fuel (length rest)); [|lia|done].
    f_equal. destruct (lacks_tag x04 refdata); simpl; [|by rewrite app_nil_r].
    by rewrite <- app_assoc.
Qed.

(** Decoding a sequence of well-formed entries. *)
Lemma decode_loop_entries (es : list (string * entry)) (fuel : nat) (rest : bytes) (d : dict)
  (tr : list (event Y)) :
  Forall (entry_ok self) es ->
  length (encode_entries es ++ rest) <= fuel ->
  decode_loop fuel self (encode_entries es ++ rest) d tr =
  decode_loop (length rest) self rest
    (decode_entries self es d).1 (tr ++ (Print <$> (decode_entries self es d).2)).
Proof.
  revert fuel d tr. induction es as [|[k e] es IH]; intros fuel d tr Hok Hf.
  { simpl in *. rewrite app_nil_r. by apply decode_loop_fuel. }
  apply Forall_cons in Hok as [Hke Hok].
  unfold encode_entries in *. rewrite bind_cons, <- app_assoc in *.
  rewrite decode_loop_entry by done.
  rewrite IH; [|done|done]. cbn [decode_entries fst snd].
  f_equal. rewrite !fmap_app, <- !app_assoc. do 2 f_equal.
  by destruct (dict_mem k d).
Qed.

Lemma decode_db_definition_entries (es : list (string * entry)) :
  Forall (entry_ok self) es ->
  decode_db_definition (Y := Y) self (encode_entries es) [] =
  Some (Ok (decode_entries self es []).1, Print <$> (decode_entries self es []).2).
Proof.
  intros Hok. unfold decode_db_definition.
  rewrite <- (app_nil_r (encode_entries es)) at 2.
  rewrite decode_loop_entries; [done..|by rewrite app_nil_r].
Qed.

End Decode.

(** ** Entries, one after the other *)

Section Entries.

Variable self : Database.

Lemma decode_entries_app (es1 es2 : list (string * entry)) (d : dict) :
  decode_entries self (es1 ++ es2) d =
  ((decode_entries self es2 (decode_entries self es1 d).1).1,
   (decode_entries self es1 d).2 ++ (decode_entries self es2 (decode_entries self es1 d).1).2).
Proof.
  revert d. induction es1 as [|[k e] es1 IH]; intros d.
  { simpl. by destruct (decode_entries self es2 d). }
  cbn [app decode_entries fst snd]. rewrite IH. cbn [fst snd].
  by rewrite <- !app_assoc.
Qed.

Lemma decode_entries_keys (es : list (string * entry)) (d : dict) (k : string) :
  k ∈ (decode_entries self es d).1.*1 <-> k ∈ d.*1 \/ k ∈ es.*1.
Proof.
  revert d. induction es as [|[k' e] es IH]; intros d; cbn [decode_entries fst snd].
  { rewrite fmap_nil, elem_of_nil. tauto. }
  rewrite IH, dict_set_elem_of, fmap_cons, elem_of_cons. cbn [fst]. tauto.
Qed.

Lemma decode_entries_NoDup (es : list (string * entry)) (d : dict) :
  NoDup d.*1 -> NoDup (decode_entries self es d).1.*1.
Proof.
  revert d. induction es as [|[k e] es IH]; intros d Hd; [done|].
  cbn [decode_entries fst]. by apply IH, dict_set_NoDup.
Qed.

Lemma decode_entries_get_other (es : list (string * entry)) (d : dict) (k : string) :
  k ∉ es.*1 -> dict_get k (decode_entries self es d).1 = dict_get k d.
Proof.
  revert d. induction es as [|[k' e] es IH]; intros d Hk; [done|].
  rewrite fmap_cons, not_elem_of_cons in Hk. destruct Hk as [Hne Hk].
  cbn [decode_entries fst]. rewrite IH by done. by apply dict_get_set_ne.
Qed.

Lemma entry_lines_tag (e : entry) (l : line) : l ∈ entry_lines self e -> l = WarnRefdataTag.
Proof.
  destruct e as [v|recno]; simpl; [by intros ?%elem_of_nil|].
  destruct (call_readrec _ _) as [[refdata|]|?]; try by intros ?%elem_of_nil.
  destruct (lacks_tag x04 refdata); [|by intros ?%elem_of_nil].
  by intros ?%list_elem_of_singleton.
Qed.

(** A duplicate-key warning names the key of one of the entries. *)
Lemma decode_entries_warning_key (es : list (string * entry)) (d : dict) (k : string) :
  WarnDuplicateKey k ∈ (decode_entries self es d).2 -> k ∈ es.*1.
Proof.
  revert d. induction es as [|[k' e] es IH]; intros d; cbn [decode_entries snd].
  { by intros ?%elem_of_nil. }
  rewrite !elem_of_app, fmap_cons, elem_of_cons. cbn [fst].
  intros [H|[H|H]].
  - destruct (dict_mem k' d); [|by apply elem_of_nil in H].
    apply list_elem_of_singleton in H. left. congruence.
  - by apply entry_lines_tag in H.
  - right. by apply IH in H.
Qed.

(** Entries with fresh, distinct keys and tagged values print nothing. *)
Lemma decode_entries_quiet (es : list (string * entry)) (d : dict) :
  NoDup es.*1 ->
  (forall k, k ∈ es.*1 -> k ∉ d.*1) ->
  Forall (fun ke => entry_lines self ke.2 = []) es ->
  (decode_entries self es d).2 = [].
Proof.
  revert d. induction es as [|[k e] es IH]; intros d Hnd Hfresh Hq; [done|].
  rewrite fmap_cons in Hnd, Hfresh. apply NoDup_cons in Hnd as [Hk Hnd].
  apply Forall_cons in Hq as [Hq1 Hq]. cbn [fst snd] in *.
  cbn [decode_entries snd]. rewrite Hq1.
  assert (dict_mem k d = false) as ->.
  { apply dict_mem_false, Hfresh. by left. }
  rewrite IH; [done|done| |done].
  intros k' Hk'. rewrite dict_set_elem_of. intros [->|Hin]; [done|].
  revert Hin. apply Hfresh. by right.
Qed.

(** Inline entries with fresh, distinct keys are appended in order. *)
Lemma decode_entries_inline (kvs : list (string * bytes)) (d : dict) :
  NoDup (d ++ kvs).*1 ->
  decode_entries self (prod_map id Inline <$> kvs) d = (d ++ kvs, []).
Proof.
  revert d. induction kvs as [|[k v] kvs IH]; intros d Hnd.
  { by rewrite app_nil_r. }
  rewrite fmap_cons. cbn [prod_map fst snd decode_entries entry_value entry_lines default id].
  assert (k ∉ d.*1) as Hk.
  { rewrite fmap_app in Hnd. apply NoDup_app in Hnd as (_ & Hd & _).
    intros Hin. apply (Hd k Hin). rewrite fmap_cons. by left. }
  rewrite (proj2 (dict_mem_false k d)) by done.
  rewrite dict_set_fresh by done.
  rewrite IH by (by rewrite <- app_assoc). by rewrite <- app_assoc.
Qed.

End Entries.

(** ** Duplicate keys *)

(** C4. A definition blob in which two entries share the key [k] (any
    entries with other keys before, between and after them) decodes without
    failing to a mapping with exactly one entry for [k], holding the value of
    the second of the two; exactly one duplicate-key warning for [k] is
    printed, and it is the only line printed when the other keys are distinct
    and no referenced value lacks its tag. *)
Theorem decode_duplicate_key {Y : Type} (self : Database)
  (pre mid post : list (string * entry)) (k : string) (e1 e2 : entry) (v2 : bytes) :
  Forall (entry_ok self) (pre ++ (k, e1) :: mid ++ (k, e2) :: post) ->
  k ∉ (pre ++ mid ++ post).*1 ->
  entry_value self e2 = Some v2 ->
  exists d tr,
    decode_db_definition (Y := Y) self
      (encode_entries (pre ++ (k, e1) :: mid ++ (k, e2) :: post)) [] = Some (Ok d, tr) /\
    filter (fun kv => kv.1 = k) d = [(k, v2)] /\
    filter (fun l => l = WarnDuplicateKey k) (printed tr) = [WarnDuplicateKey k] /\
    (NoDup (pre ++ mid ++ post).*1 ->
     Forall (fun ke => entry_lines self ke.2 = []) (pre ++ (k, e1) :: mid ++ (k, e2) :: post) ->
     tr = [Print (WarnDuplicateKey k)]).
Proof.
  intros Hok Hk Hv2.
  rewrite !fmap_app, !not_elem_of_app in Hk. destruct Hk as (Hkpre & Hkmid & Hkpost).
  eexists _, _. split; [by apply decode_db_definition_entries|].
  set (d0 := (decode_entries self pre []).1).
  set (d1 := (decode_entries self mid (dict_set k (default [] (entry_value self e1)) d0)).1).
  assert (Hd0 : dict_mem k d0 = false).
  { apply dict_mem_false. unfold d0. rewrite decode_entries_keys, fmap_nil, elem_of_nil. tauto. }
  assert (Hd1 : dict_mem k d1 = true).
  { apply dict_mem_true. unfold d1. rewrite decode_entries_keys, dict_set_elem_of. tauto. }
  assert (Hdec : decode_entries self (pre ++ (k, e1) :: mid ++ (k, e2) :: post) [] =
    ((decode_entries self post (dict_set k v2 d1)).1,
     (decode_entries self pre []).2 ++ entry_lines self e1 ++
     (decode_entries self mid (dict_set k (default [] (entry_value self e1)) d0)).2 ++
     [WarnDuplicateKey k] ++ entry_lines self e2 ++
     (decode_entries self post (dict_set k v2 d1)).2)).
  { rewrite decode_entries_app. cbn [decode_entries fst snd]. fold d0. rewrite Hd0.
    rewrite decode_entries_app. cbn [decode_entries fst snd]. fold d1. rewrite Hd1, Hv2.
    done. }
  rewrite Hdec. cbn [fst snd]. clear Hdec. split_and!.
  - apply dict_get_unique.
    + by apply decode_entries_NoDup, dict_set_NoDup, decode_entries_NoDup,
        dict_set_NoDup, decode_entries_NoDup, NoDup_nil.
    + rewrite decode_entries_get_other by done. apply dict_get_set_eq.
  - rewrite printed_Print, !filter_app.
    rewrite (filter_none _ (decode_entries self pre []).2);
      [|by intros l Hl ->; apply decode_entries_warning_key in Hl].
    rewrite (filter_none _ (entry_lines self e1));
      [|by intros l Hl ->; apply entry_lines_tag in Hl].
    rewrite (filter_none _ (decode_entries self mid _).2);
      [|by intros l Hl ->; apply decode_entries_warning_key in Hl].
    rewrite (filter_none _ (entry_lines self e2));
      [|by intros l Hl ->; apply entry_lines_tag in Hl].
    rewrite (filter_none _ (decode_entries self post _).2);
      [|by intros l Hl ->; apply decode_entries_warning_key in Hl].
    by rewrite filter_cons_True.
  - intros Hnd Hquiet.
    rewrite !fmap_app in Hnd.
    apply NoDup_app in Hnd as (Hndpre & Hpre & Hnd).
    apply NoDup_app in Hnd as (Hndmid & Hmid & Hndpost).
    apply Forall_app in Hquiet as [Hqpre Hquiet].
    apply Forall_cons in Hquiet as [Hq1 Hquiet].
    apply Forall_app in Hquiet as [Hqmid Hquiet].
    apply Forall_cons in Hquiet as [Hq2 Hqpost]. cbn [snd] in Hq1, Hq2.
    rewrite Hq1, Hq2.
    rewrite (decode_entries_quiet self pre); [|done|by intros ? _ ?%elem_of_nil|done].
    rewrite (decode_entries_quiet self mid); [|done| |done].
    2:{ intros k' Hk'. rewrite dict_set_elem_of. unfold d0.
        rewrite decode_entries_keys, fmap_nil, elem_of_nil.
        intros [->|[[]|Hin]]; [done|]. apply (Hpre k' Hin), elem_of_app. by left. }
    rewrite (decode_entries_quiet self post); [done|done| |done].
    intros k' Hk'. rewrite dict_set_elem_of. unfold d1.
    rewrite decode_entries_keys, dict_set_elem_of. unfold d0.
    rewrite decode_entries_keys, fmap_nil, elem_of_nil.
    intros [->|[[->|[[]|Hin]]|Hin]]; [done|done| |].
    + apply (Hpre k' Hin), elem_of_app. by right.
    + by apply (Hmid k' Hin).
Qed.

Lemma decode_duplicate_key_witness :
  let self := {| stru := Some (datafile_of_slots []); index := None; bank := None; sys := None |} in
  exists d tr,
    decode_db_definition (Y := Empty_set) self
      (encode_entries ([] ++ ("Name", Inline [x01]) :: [] ++ ("Name", Inline [x02; x03]) :: []))
      [] = Some (Ok d, tr) /\
    filter (fun kv => kv.1 = "Name") d = [("Name", [x02; x03])] /\
    filter (fun l => l = WarnDuplicateKey "Name") (printed tr) = [WarnDuplicateKey "Name"] /\
    (NoDup (([] : list (string * entry)) ++ [] ++ []).*1 ->
     Forall (fun ke => entry_lines self ke.2 = [])
       ([] ++ ("Name", Inline [x01]) :: [] ++ ("Name", Inline [x02; x03]) :: []) ->
     tr = [Print (WarnDuplicateKey "Name")]).
Proof.
  intros self.
  apply (decode_duplicate_key self [] [] [] "Name" (Inline [x01]) (Inline [x02; x03]) [x02; x03]).
  - repeat constructor; simpl; lia.
  - simpl. apply not_elem_of_nil.
  - reflexivity.
Defined.

(** ** References *)

(** A blob of one reference to a record that lacks the tag. *)
Lemma decode_single_reference {Y : Type} (self : Database) (k : string) (recno : N)
  (refdata : bytes) :
  String.length k < 256 ->
  (recno < 2 ^ 31)%N ->
  call_readrec (stru self) (N.to_nat recno) = Ok (Some refdata) ->
  lacks_tag x04 refdata = true ->
  decode_db_definition (Y := Y) self (encode_name k ++ le32 recno) [] =
  Some (Ok [(k, drop 1 refdata)], [Print WarnRefdataTag]).
Proof.
  intros Hk Hr Hread Htag.
  pose proof (decode_db_definition_entries (Y := Y) self [(k, Reference recno)]) as H.
  unfold encode_entries in H.
  cbn [mbind list_bind encode_entry fst snd decode_entries entry_value entry_lines] in H.
  rewrite app_nil_r, Hread, Htag in H. apply H.
  apply Forall_cons. split; [|by constructor].
  split; [done|]. split; [done|]. cbn [snd entry_value]. by rewrite Hread.
Qed.

(** C5. An entry whose descriptor has bit 31 clear ([recno < 2 ^ 31]) is
    resolved by reading record [recno] of the structure file. When that
    record does not start with 0x04, decoding does not fail: the value stored
    under the key is the record without its first byte, and for this entry
    one tag warning is printed (after the duplicate-key warning, if the key
    was seen before). *)
Theorem decode_reference_untagged {Y : Type} (self : Database)
  (pre post : list (string * entry)) (k : string) (recno : N) (refdata : bytes) :
  Forall (entry_ok self) pre ->
  Forall (entry_ok self) post ->
  String.length k < 256 ->
  (recno < 2 ^ 31)%N ->
  call_readrec (stru self) (N.to_nat recno) = Ok (Some refdata) ->
  lacks_tag x04 refdata = true ->
  k ∉ post.*1 ->
  let d0 := (decode_entries self pre []).1 in
  exists d tr,
    decode_db_definition (Y := Y) self
      (encode_entries pre ++ (encode_name k ++ le32 recno) ++ encode_entries post) []
      = Some (Ok d, tr) /\
    dict_get k d = Some (drop 1 refdata) /\
    printed tr =
      (decode_entries self pre []).2 ++
      (if dict_mem k d0 then [WarnDuplicateKey k] else []) ++
      [WarnRefdataTag] ++
      (decode_entries self post (dict_set k (drop 1 refdata) d0)).2.
Proof.
  intros Hpre Hpost Hk Hr Hread Htag Hkpost d0.
  assert (Hval : entry_value self (Reference recno) = Some (drop 1 refdata)).
  { simpl. by rewrite Hread. }
  assert (Hlines : entry_lines self (Reference recno) = [WarnRefdataTag]).
  { simpl. by rewrite Hread, Htag. }
  assert (Hblob : encode_entries pre ++ (encode_name k ++ le32 recno) ++ encode_entries post
                  = encode_entries (pre ++ (k, Reference recno) :: post)).
  { unfold encode_entries. by rewrite bind_app, bind_cons. }
  rewrite Hblob. eexists _, _. split.
  { apply decode_db_definition_entries.
    apply Forall_app. split; [done|]. apply Forall_cons. split; [|done].
    split; [done|]. split; [done|]. by rewrite Hval. }
  rewrite printed_Print, decode_entries_app. cbn [decode_entries fst snd].
  rewrite Hval, Hlines. cbn [default id]. fold d0. split; [|done].
  rewrite decode_entries_get_other by done. apply dict_get_set_eq.
Qed.

Lemma decode_reference_untagged_witness :
  let self := {| stru := Some (datafile_of_slots [Present [x05; x41; x42]]);
                 index := None; bank := None; sys := None |} in
  exists d tr,
    decode_db_definition (Y := Empty_set) self
      (encode_entries [] ++ (encode_name "Name" ++ le32 1) ++ encode_entries []) []
      = Some (Ok d, tr) /\
    dict_get "Name" d = Some (drop 1 [x05; x41; x42]) /\
    printed tr =
      (decode_entries self [] []).2 ++
      (if dict_mem "Name" (decode_entries self [] []).1 then [WarnDuplicateKey "Name"] else []) ++
      [WarnRefdataTag] ++
      (decode_entries self [] (dict_set "Name" (drop 1 [x05; x41; x42])
                                 (decode_entries self [] []).1)).2.
Proof.
  intros self.
  apply (decode_reference_untagged self [] [] "Name" 1 [x05; x41; x42]).
  - constructor.
  - constructor.
  - simpl. lia.
  - reflexivity.
  - reflexivity.
  - reflexivity.
  - simpl. apply not_elem_of_nil.
Defined.

(** ** Round trip *)

(** C7. A blob that consists of inline entries only, with distinct keys,
    names shorter than 256 bytes and values shorter than 2^31 bytes, decodes
    without a warning, and re-encoding the decoded mapping gives the blob
    back, byte for byte. *)
Theorem decode_encode_roundtrip {Y : Type} (self : Database) (kvs : dict) :
  NoDup kvs.*1 ->
  Forall (fun kv => String.length kv.1 < 256 /\ (N.of_nat (length kv.2) < 2 ^ 31)%N) kvs ->
  exists d,
    decode_db_definition (Y := Y) self (encode_db_definition kvs) [] = Some (Ok d, []) /\
    encode_db_definition d = encode_db_definition kvs.
Proof.
  intros Hnd Hsize. exists kvs. split; [|done].
  unfold encode_db_definition. rewrite decode_db_definition_entries.
  - by rewrite decode_entries_inline.
  - apply Forall_fmap. eapply Forall_impl; [done|]. by intros [k v].
Qed.

Lemma decode_encode_roundtrip_witness :
  let self := {| stru := None; index := None; bank := None; sys := None |} in
  let kvs := [("Base000", [x01; x02]); ("Name", []); ("Base001", [xff])] in
  exists d,
    decode_db_definition (Y := Empty_set) self (encode_db_definition kvs) [] = Some (Ok d, []) /\
    encode_db_definition d = encode_db_definition kvs.
Proof.
  intros self kvs. apply (decode_encode_roundtrip self kvs).
  - compute_done.
  - repeat constructor; simpl; lia.
Defined.

(** A repeated key is decoded to one entry, so that re-encoding gives a
    shorter blob: distinct keys are needed for the round trip. *)
Lemma roundtrip_needs_distinct_keys :
  let self := {| stru := None; index := None; bank := None; sys := None |} in
  let blob := encode_db_definition [("A", [x01]); ("A", [x02])] in
  decode_db_definition (Y := Empty_set) self blob []
    = Some (Ok [("A", [x02])], [Print (WarnDuplicateKey "A")]) /\
  encode_db_definition [("A", [x02])] <> blob.
Proof. split; [by vm_compute | by vm_compute]. Qed.

(** ** The trace before a call *)

(** What the decoder returns and prints does not depend on what was printed
    before. *)
Lemma decode_loop_frame {Y : Type} (self : Database) (fuel : nat) (rd : ByteReader.t)
  (d : dict) (tr : list (event Y)) :
  decode_loop fuel self rd d tr =
  match decode_loop fuel self rd d [] with
  | Some (r, tr') => Some (r, tr ++ tr')
  | None => None
  end.
Proof.
  revert rd d tr. induction fuel as [|fuel IH]; intros rd d tr.
  { simpl. destruct (ByteReader.eof rd); [unfold ret; by rewrite app_nil_r | done]. }
  rewrite !decode_loop_unfold.
  destruct (ByteReader.eof rd); [by rewrite app_nil_r|].
  destruct (ByteReader.readname rd) as [[k rd1]|e]; [|by rewrite app_nil_r].
  cbn zeta.
  set (w := if dict_mem k d then [@Print Y (WarnDuplicateKey k)] else []).
  replace (if dict_mem k d then tr ++ [Print (WarnDuplicateKey k)] else tr) with (tr ++ w)
    by (unfold w; destruct (dict_mem k d); [done | by rewrite app_nil_r]).
  replace (if dict_mem k d then [] ++ [Print (WarnDuplicateKey k)] else []) with w
    by (unfold w; by destruct (dict_mem k d)).
  destruct (ByteReader.readdword rd1) as [[v rd2]|e]; [|done].
  destruct (negb (N.shiftr v 31 =? 0)%N).
  - destruct (ByteReader.readbytes _ rd2) as [[val rd3]|e]; [|done].
    rewrite (IH _ _ (tr ++ w)), (IH _ _ w).
    destruct (decode_loop fuel self rd3 _ []) as [[r tr']|]; [|done].
    by rewrite app_assoc.
  - destruct (call_readrec _ _) as [[refdata|]|e]; [|done|done].
    destruct (lacks_tag x04 refdata).
    + rewrite (IH _ _ ((tr ++ w) ++ _)), (IH _ _ (w ++ _)).
      destruct (decode_loop fuel self rd2 _ []) as [[r tr']|]; [|done].
      by rewrite !app_assoc.
    + rewrite (IH _ _ (tr ++ w)), (IH _ _ w).
      destruct (decode_loop fuel self rd2 _ []) as [[r tr']|]; [|done].
      by rewrite app_assoc.
Qed.

Lemma decode_db_definition_frame {Y : Type} (self : Database) (data : bytes)
  (tr : list (event Y)) :
  decode_db_definition self data tr =
  match decode_db_definition self data [] with
  | Some (r, tr') => Some (r, tr ++ tr')
  | None => None
  end.
Proof. apply decode_loop_frame. Qed.

(** The decoder prints and never yields. *)
Lemma decode_loop_yields {Y : Type} (self : Database) (fuel : nat) (rd : ByteReader.t)
  (d : dict) (tr tr' : list (event Y)) (r : result dict) :
  decode_loop fuel self rd d tr = Some (r, tr') -> yields tr' = yields tr.
Proof.
  revert rd d tr. induction fuel as [|fuel IH]; intros rd d tr.
  { simpl. destruct (ByteReader.eof rd); [|done]. by intros [= _ <-]. }
  rewrite decode_loop_unfold.
  assert (Hw : forall l, yields (tr ++ [@Print Y l]) = yields tr).
  { intros l. unfold yields. rewrite omap_app. simpl. by rewrite app_nil_r. }
  destruct (ByteReader.eof rd); [by intros [= _ <-]|].
  destruct (ByteReader.readname rd) as [[k rd1]|e]; [|by intros [= _ <-]].
  cbn zeta.
  set (tr1 := if dict_mem k d then tr ++ [Print (WarnDuplicateKey k)] else tr).
  assert (Htr1 : yields tr1 = yields tr).
  { unfold tr1. by destruct (dict_mem k d). }
  destruct (ByteReader.readdword rd1) as [[v rd2]|e]; [|by intros [= _ <-]].
  destruct (negb (N.shiftr v 31 =? 0)%N).
  - destruct (ByteReader.readbytes _ rd2) as [[val rd3]|e]; [|by intros [= _ <-]].
    intros H. apply IH in H. congruence.
  - destruct (call_readrec _ _) as [[refdata|]|e]; [|by intros [= _ <-]..].
    intros H. apply IH in H. rewrite H.
    destruct (lacks_tag x04 refdata); [|done].
    unfold yields in *. rewrite omap_app. simpl. by rewrite app_nil_r.
Qed.

(** ** enumerate_tables *)

Lemma prefix_Base (k : string) : String.prefix "Base" k = true -> k = "Base" +:+ str_from 4 k.
Proof.
  destruct k as [|c1 [|c2 [|c3 [|c4 k]]]]; simpl; try done;
    repeat (case_match; try done); subst.
Qed.

Section EnumerateTables.

Context {TableDefinition : Type}.
Variable TableDefinition_init : bytes -> result TableDefinition.
Variable isnumeric : string -> bool.

Lemma wanted_table_key (files : bool) (k : string) :
  wanted isnumeric files k = true <-> table_key isnumeric files k.
Proof.
  unfold wanted, table_key. split.
  - intros [[Hp Hn]%andb_true_iff Hs]%andb_true_iff.
    exists (str_from 4 k). split_and!; [by apply prefix_Base|done| |].
    + intros ->. by apply String.eqb_eq.
    + intros ->. apply negb_true_iff in Hs. by apply String.eqb_neq.
  - intros (sfx & -> & Hn & Hf & Hnf).
    change (str_from 4 ("Base" +:+ sfx)) with sfx.
    replace (String.prefix "Base" ("Base" +:+ sfx)) with true.
    2:{ by destruct sfx. }
    rewrite Hn. simpl. destruct files.
    + apply String.eqb_eq. by apply Hf.
    + apply negb_true_iff, String.eqb_neq. by apply Hnf.
Qed.

Lemma enumerate_tables_iter_run (files : bool) (k : string) (v : bytes)
  (tr : list (event TableDefinition)) :
  enumerate_tables_iter TableDefinition_init isnumeric files (k, v) tr =
  if wanted isnumeric files k then
    match TableDefinition_init v with
    | Ok t => Some (Ok tt, tr ++ [Yield t])
    | Raise e => Some (Raise e, tr)
    end
  else Some (Ok tt, tr).
Proof.
  unfold enumerate_tables_iter, wanted, bind, when, lift, yield, ret.
  destruct (String.prefix "Base" k); [|done].
  destruct (isnumeric (str_from 4 k)); [|done].
  destruct files, (String.eqb (str_from 4 k) "000"); simpl; try done;
    by destruct (TableDefinition_init v).
Qed.

(** The loop over the decoded definition: the wanted entries, in order, up
    to the first whose table definition cannot be built. *)
Lemma enumerate_tables_loop (files : bool) (dbdef : dict)
  (tr0 tr : list (event TableDefinition)) (r : result unit) :
  for_each dbdef (enumerate_tables_iter TableDefinition_init isnumeric files) tr0
    = Some (r, tr) ->
  exists sel ts,
    tr = tr0 ++ (Yield <$> ts) /\
    Forall2 (fun kv t => TableDefinition_init kv.2 = Ok t) sel ts /\
    sel `prefix_of` filter (fun kv => wanted isnumeric files kv.1 = true) dbdef /\
    (r = Ok tt -> sel = filter (fun kv => wanted isnumeric files kv.1 = true) dbdef).
Proof.
  revert tr0. induction dbdef as [|[k v] dbdef IH]; intros tr0.
  { intros [= <- <-]. exists [], []. rewrite app_nil_r. by split_and!. }
  cbn [for_each]. unfold bind at 1. rewrite enumerate_tables_iter_run.
  rewrite filter_cons. cbn [fst].
  destruct (wanted isnumeric files k) eqn:Hw.
  - rewrite decide_True by done.
    destruct (TableDefinition_init v) as [t|e] eqn:Hinit.
    + intros (sel & ts & -> & Hsel & Hpre & Hall)%IH.
      exists ((k, v) :: sel), (t :: ts). split_and!.
      * by rewrite <- app_assoc.
      * by constructor.
      * by apply prefix_cons.
      * intros Hr. by rewrite Hall.
    + intros [= <- <-]. exists [], []. rewrite app_nil_r.
      split_and!; [done|done|apply prefix_nil|done].
  - rewrite decide_False by done. apply IH.
Qed.

(** C3. The table definitions that [enumerate_tables] yields are built, in
    order, from entries of the decoded database definition whose key is
    'Base' followed by a numeric suffix; with [files] the suffix is "000" for
    each of them, without [files] it is never "000". When the generator runs
    to its end, no such entry of the definition has been left out. *)
Theorem enumerate_tables_keys (self : Database) (files : bool) (r : result unit)
  (tr : list (event TableDefinition)) :
  enumerate_tables TableDefinition_init isnumeric self files [] = Some (r, tr) ->
  exists (dbdef : dict) (sel : list (string * bytes)),
    Forall2 (fun kv t => TableDefinition_init kv.2 = Ok t) sel (yields tr) /\
    Forall (fun kv => table_key isnumeric files kv.1) sel /\
    sel `sublist_of` dbdef /\
    (sel <> [] ->
     exists dbinfo tr1,
       call_readrec (stru self) 1 = Ok (Some dbinfo) /\
       decode_db_definition (Y := TableDefinition) self (drop 1 dbinfo) []
         = Some (Ok dbdef, tr1)) /\
    (r = Ok tt -> forall kv, kv ∈ dbdef -> table_key isnumeric files kv.1 -> kv ∈ sel).
Proof.
  unfold enumerate_tables, bind at 1, lift.
  destruct (call_readrec (stru self) 1) as [[dbinfo|]|e] eqn:Hread.
  2,3: intros [= <- <-]; exists [], []; split_and!;
         [constructor|constructor|constructor|done|done].
  unfold bind at 1.
  set (tr0 := if lacks_tag x03 dbinfo then [@Print TableDefinition WarnDbinfoTag] else []).
  replace (when (lacks_tag x03 dbinfo) (print WarnDbinfoTag) [])
    with (Some (@Ok unit tt, tr0)) by (unfold tr0, when; by destruct (lacks_tag x03 dbinfo)).
  unfold bind at 1.
  rewrite decode_db_definition_frame.
  destruct (decode_db_definition self (drop 1 dbinfo) [])
    as [[[dbdef|e] tr1]|] eqn:Hdec; [| |done].
  2: intros [= <- <-]; exists [], []; split_and!;
       [|constructor|constructor|done|done].
  2:{ apply decode_loop_yields in Hdec. rewrite yields_app, Hdec.
      unfold tr0. destruct (lacks_tag x03 dbinfo); constructor. }
  intros (sel & ts & -> & Hsel & Hpre & Hall)%enumerate_tables_loop.
  exists dbdef, sel. split_and!.
  - apply decode_loop_yields in Hdec.
    replace (yields ((tr0 ++ tr1) ++ (Yield <$> ts))) with ts; [done|].
    rewrite !yields_app, Hdec, yields_Yield.
    unfold tr0. by destruct (lacks_tag x03 dbinfo).
  - apply Forall_forall. intros kv Hkv. apply wanted_table_key.
    destruct Hpre as [rest Hrest].
    assert (kv ∈ filter (fun kv => wanted isnumeric files kv.1 = true) dbdef) as Hin.
    { rewrite Hrest. apply elem_of_app. by left. }
    by apply list_elem_of_filter in Hin as [? _].
  - destruct Hpre as [rest Hrest].
    transitivity (filter (fun kv => wanted isnumeric files kv.1 = true) dbdef);
      [|apply sublist_filter].
    rewrite Hrest. by apply sublist_inserts_r.
  - intros _. by exists dbinfo, tr1.
  - intros Hr kv Hkv Hkey. rewrite (Hall Hr). apply list_elem_of_filter.
    split; [|done]. by apply wanted_table_key.
Qed.

End EnumerateTables.

Lemma enumerate_tables_keys_witness :
  let dbdef := [("Base000", [x00; x01]); ("Name", [x41]); ("Base001", [x01]);
                ("Base", [x07]); ("Base2x", [x08]); ("Base017", [x11])] in
  let self := Example.database [Present (x03 :: encode_db_definition dbdef)] [] in
  let tr := [Yield {| Example.tableid := 1; Example.fields := [x01] |};
             Yield {| Example.tableid := 17; Example.fields := [x11] |}] in
  exists (dbdef : dict) (sel : list (string * bytes)),
    Forall2 (fun kv t => Example.TableDefinition_init kv.2 = Ok t) sel (yields tr) /\
    Forall (fun kv => table_key Example.isnumeric false kv.1) sel /\
    sel `sublist_of` dbdef /\
    (sel <> [] ->
     exists dbinfo tr1,
       call_readrec (stru self) 1 = Ok (Some dbinfo) /\
       decode_db_definition (Y := Example.table) self (drop 1 dbinfo) []
         = Some (Ok dbdef, tr1)) /\
    (Ok tt = Ok tt -> forall kv, kv ∈ dbdef -> table_key Example.isnumeric false kv.1 -> kv ∈ sel).
Proof.
  intros dbdef self tr.
  apply (enumerate_tables_keys Example.TableDefinition_init Example.isnumeric
           self false (Ok tt) tr).
  vm_compute. reflexivity.
Defined.

(** ** enumerate_records and enumerate_files *)

Lemma for_each_ext {Y A} (l : list A) (f g : A -> M Y unit) (tr : list (event Y)) :
  (forall x tr', f x tr' = g x tr') -> for_each l f tr = for_each l g tr.
Proof.
  intros Hfg. revert tr. induction l as [|x l IH]; intros tr; [done|].
  cbn [for_each]. unfold bind. rewrite Hfg.
  destruct (g x tr) as [[[[]|e] tr']|]; [apply IH|done..].
Qed.

Section EnumerateRecords.

Context {TableDefinition Fields Record : Type}.
Variable tableid : TableDefinition -> N.
Variable fields : TableDefinition -> Fields.
Variable Record_init : nat -> Fields -> bytes -> result Record.

Lemma hit_at_Some (bankf : Datafile) (table : TableDefinition) (i j : nat) (data : bytes) :
  hit_at tableid bankf table j = Some (i, data) <->
  j = i /\ readrec bankf i = Ok (Some data) /\
  exists b0 rest, data = b0 :: rest /\ Byte.to_N b0 = tableid table.
Proof.
  unfold hit_at. split.
  - destruct (readrec bankf j) as [[[|b0 rest]|]|e] eqn:E; try done.
    destruct (N.eqb_spec (Byte.to_N b0) (tableid table)) as [Heq|]; [|done].
    intros [= <- <-]. split_and!; [done..|]. by exists b0, rest.
  - intros (-> & -> & b0 & rest & -> & ->). by rewrite N.eqb_refl.
Qed.

Lemma hits_elem_of (bankf : Datafile) (table : TableDefinition) (s n i : nat) (data : bytes) :
  (i, data) ∈ omap (hit_at tableid bankf table) (seq s n) <->
  s <= i < s + n /\ readrec bankf i = Ok (Some data) /\
  exists b0 rest, data = b0 :: rest /\ Byte.to_N b0 = tableid table.
Proof.
  rewrite list_elem_of_omap. split.
  - intros (j & Hj%elem_of_seq & (-> & H)%hit_at_Some). by split.
  - intros (Hi & H). exists i. split; [by apply elem_of_seq|]. by apply hit_at_Some.
Qed.

Lemma hits_sorted (bankf : Datafile) (table : TableDefinition) (s n : nat) :
  StronglySorted lt (omap (hit_at tableid bankf table) (seq s n)).*1.
Proof.
  revert s. induction n as [|n IH]; intros s; [constructor|].
  cbn [seq omap list_omap].
  destruct (hit_at tableid bankf table s) as [[i data]|] eqn:E; [|apply IH].
  apply hit_at_Some in E as (-> & _). rewrite fmap_cons. constructor; [apply IH|].
  apply Forall_forall. intros j ([j' d] & -> & Hin)%list_elem_of_fmap.
  apply hits_elem_of in Hin as [Hj _]. simpl. lia.
Qed.

Lemma enumerate_records_iter_run (self : Database) (bankf : Datafile)
  (table : TableDefinition) (i : nat) (data : option bytes) (tr : list (event Record)) :
  bank self = Some bankf ->
  readrec bankf i = Ok data ->
  enumerate_records_iter tableid fields Record_init self table i tr =
  Some (Ok tt, tr ++ from_option (record_events fields Record_init table) [] (hit_at tableid bankf table i)).
Proof.
  intros Hbank Hread.
  unfold enumerate_records_iter, hit_at, record_events, bind, lift, call_readrec.
  rewrite Hbank, Hread. destruct data as [[|b0 rest]|]; try (by rewrite app_nil_r).
  destruct (Byte.to_N b0 =? tableid table)%N; [|by rewrite app_nil_r].
  simpl. unfold drop. by destruct (Record_init i (fields table) rest).
Qed.

Lemma enumerate_records_loop (self : Database) (bankf : Datafile)
  (table : TableDefinition) (s n : nat) (tr : list (event Record)) :
  bank self = Some bankf ->
  (forall i, s <= i < s + n -> exists data, readrec bankf i = Ok data) ->
  for_each (seq s n) (enumerate_records_iter tableid fields Record_init self table) tr =
  Some (Ok tt, tr ++ (omap (hit_at tableid bankf table) (seq s n) ≫= record_events fields Record_init table)).
Proof.
  intros Hbank. revert s tr. induction n as [|n IH]; intros s tr Hread.
  { simpl. by rewrite app_nil_r. }
  destruct (Hread s) as [data Hs]; [lia|].
  cbn [seq for_each]. unfold bind at 1.
  rewrite (enumerate_records_iter_run self bankf table s data) by done.
  rewrite IH by (intros i Hi; apply Hread; lia).
  cbn [omap list_omap]. rewrite <- app_assoc. do 3 f_equal.
  by destruct (hit_at tableid bankf table s).
Qed.

(** C6, as the code has it. When every record of the bank can be read
    (present or deleted), [enumerate_records] runs to its end over the
    record numbers 1..count. The present records that start with the id of
    the table are taken in ascending order of record number; for each of
    them the decoded record is yielded, or, when decoding raises, the record
    is reported with its number and its bytes and the sweep goes on. Nothing
    else is yielded or printed. *)
Theorem enumerate_records_sweep (self : Database) (bankf : Datafile)
  (table : TableDefinition) :
  bank self = Some bankf ->
  (forall i, 1 <= i <= tadidx_len bankf -> exists data, readrec bankf i = Ok data) ->
  exists hits : list (nat * bytes),
    StronglySorted lt hits.*1 /\
    (forall i data,
       (i, data) ∈ hits <->
       1 <= i <= tadidx_len bankf /\ readrec bankf i = Ok (Some data) /\
       exists b0 rest, data = b0 :: rest /\ Byte.to_N b0 = tableid table) /\
    enumerate_records tableid fields Record_init self table [] =
    Some (Ok tt,
          hits ≫= fun hit =>
            match Record_init hit.1 (fields table) (drop 1 hit.2) with
            | Ok rec => [Yield rec]
            | Raise _ => [Print (RecordBroken hit.1 hit.2)]
            end).
Proof.
  intros Hbank Hread.
  exists (omap (hit_at tableid bankf table) (seq 1 (tadidx_len bankf))). split_and!.
  - apply hits_sorted.
  - intros i data. rewrite hits_elem_of.
    split; intros (Hi & H); (split; [lia|done]).
  - unfold enumerate_records, nrofrecords, bind at 1, lift. rewrite Hbank.
    rewrite (enumerate_records_loop self bankf) by (try done; intros i Hi; apply Hread; lia).
    done.
Qed.

End EnumerateRecords.

Lemma enumerate_records_sweep_witness :
  let slots := [Deleted; Present (x01 :: list_byte_of_string "payload");
                Deleted; Present (x01 :: list_byte_of_string "more")] in
  let self := Example.database [] slots in
  let table := {| Example.tableid := 1; Example.fields := [] |} in
  exists hits : list (nat * bytes),
    StronglySorted lt hits.*1 /\
    (forall i data,
       (i, data) ∈ hits <->
       1 <= i <= 4 /\ readrec (datafile_of_slots slots) i = Ok (Some data) /\
       exists b0 rest, data = b0 :: rest /\ Byte.to_N b0 = 1%N) /\
    enumerate_records Example.tableid Example.fields Example.Record_init self table [] =
    Some (Ok tt,
          hits ≫= fun hit =>
            match Example.Record_init hit.1 (Example.fields table) (drop 1 hit.2) with
            | Ok rec => [Yield rec]
            | Raise _ => [Print (RecordBroken hit.1 hit.2)]
            end).
Proof.
  intros slots self table.
  apply (enumerate_records_sweep Example.tableid Example.fields Example.Record_init
           self (datafile_of_slots slots) table).
  - reflexivity.
  - intros i Hi. simpl in Hi.
    destruct i as [|[|[|[|[|i]]]]]; [lia|by eexists..|lia].
Defined.

(** The store of the specification: records 2 and 4, in that order. *)
Example enumerate_records_two_of_four :
  let slots := [Deleted; Present (x01 :: list_byte_of_string "payload");
                Deleted; Present (x01 :: list_byte_of_string "more")] in
  enumerate_records Example.tableid Example.fields Example.Record_init
    (Example.database [] slots) {| Example.tableid := 1; Example.fields := [] |} [] =
  Some (Ok tt,
        [Yield {| Example.recno := 2; Example.payload := list_byte_of_string "payload" |};
         Yield {| Example.recno := 4; Example.payload := list_byte_of_string "more" |}]).
Proof. by vm_compute. Qed.

(** A record that cannot be read ends the filtered sweep with the exception
    of the read: the read is outside the [try] block. Record 3 is present
    and starts with the id of the table, and it is not yielded. *)
Lemma enumerate_records_stops_at_unreadable :
  let slots := [Present [x01; x41]; Unreadable (Exception "zlib"); Present [x01; x42]] in
  tadidx_len (datafile_of_slots slots) = 3 /\
  readrec (datafile_of_slots slots) 3 = Ok (Some [x01; x42]) /\
  enumerate_records Example.tableid Example.fields Example.Record_init
    (Example.database [] slots) {| Example.tableid := 1; Example.fields := [] |} [] =
  Some (Raise (Exception "zlib"),
        [Yield {| Example.recno := 1; Example.payload := [x41] |}]).
Proof. split_and!; by vm_compute. Qed.

(** ** Empty records *)

Section EmptyRecords.

Context {TableDefinition Fields Record : Type}.
Variable tableid : TableDefinition -> N.
Variable fields : TableDefinition -> Fields.
Variable Record_init : nat -> Fields -> bytes -> result Record.

(** C10. A present record of zero bytes is passed over by
    [enumerate_records] and [enumerate_files] without a yield and without a
    diagnostic, and both sweeps run exactly as on the bank in which that
    record is deleted. *)
Theorem empty_record_like_absent (self : Database) (bankf : Datafile)
  (table : TableDefinition) (j : nat) :
  bank self = Some bankf ->
  readrec bankf j = Ok (Some []) ->
  let self' := with_bank self (with_record bankf j (Ok None)) in
  (forall tr, enumerate_records_iter tableid fields Record_init self table j tr
              = Some (Ok tt, tr)) /\
  (forall tr, enumerate_files_iter tableid self table j tr = Some (Ok tt, tr)) /\
  (forall tr, enumerate_records tableid fields Record_init self table tr =
              enumerate_records tableid fields Record_init self' table tr) /\
  (forall tr, enumerate_files tableid self table tr =
              enumerate_files tableid self' table tr).
Proof.
  intros Hbank Hempty self'.
  assert (Hread : forall i,
    call_readrec (bank self') i =
    if decide (i = j) then Ok None else call_readrec (bank self) i).
  { intros i. rewrite Hbank. done. }
  split_and!.
  - intros tr. unfold enumerate_records_iter, bind, lift, call_readrec.
    by rewrite Hbank, Hempty.
  - intros tr. unfold enumerate_files_iter, bind, lift, call_readrec.
    by rewrite Hbank, Hempty.
  - intros tr. unfold enumerate_records, nrofrecords.
    cbn [self' with_bank bank with_record tadidx_len]. rewrite Hbank.
    unfold bind, lift. apply for_each_ext. intros i tr'.
    unfold enumerate_records_iter, bind, lift. rewrite Hread.
    destruct (decide (i = j)) as [->|]; [|done].
    unfold call_readrec. by rewrite Hbank, Hempty.
  - intros tr. unfold enumerate_files, nrofrecords.
    cbn [self' with_bank bank with_record tadidx_len]. rewrite Hbank.
    unfold bind, lift. apply for_each_ext. intros i tr'.
    unfold enumerate_files_iter, bind, lift. rewrite Hread.
    destruct (decide (i = j)) as [->|]; [|done].
    unfold call_readrec. by rewrite Hbank, Hempty.
Qed.

End EmptyRecords.

Lemma empty_record_like_absent_witness :
  let bankf := datafile_of_slots [Present [x01; x41]; Present []; Present [x01; x42]] in
  let self := Example.database [] [Present [x01; x41]; Present []; Present [x01; x42]] in
  let table := {| Example.tableid := 1; Example.fields := [] |} in
  let self' := with_bank self (with_record bankf 2 (Ok None)) in
  (forall tr, enumerate_records_iter Example.tableid Example.fields Example.Record_init
                self table 2 tr = Some (Ok tt, tr)) /\
  (forall tr, enumerate_files_iter Example.tableid self table 2 tr = Some (Ok tt, tr)) /\
  (forall tr, enumerate_records Example.tableid Example.fields Example.Record_init
                self table tr =
              enumerate_records Example.tableid Example.fields Example.Record_init
                self' table tr) /\
  (forall tr, enumerate_files Example.tableid self table tr =
              enumerate_files Example.tableid self' table tr).
Proof.
  intros bankf self table self'.
  apply (empty_record_like_absent Example.tableid Example.fields Example.Record_init
           self bankf table 2).
  - reflexivity.
  - reflexivity.
Defined.

(** On that bank the files sweep yields records 1 and 3. *)
Example enumerate_files_skips_empty :
  enumerate_files Example.tableid
    (Example.database [] [Present [x01; x41]; Present []; Present [x01; x42]])
    {| Example.tableid := 1; Example.fields := [] |} [] =
  Some (Ok tt, [Yield (1, [x41]); Yield (3, [x42])]).
Proof. by vm_compute. Qed.

(** ** recdump *)

Lemma set_nerr_same (st : locals) : set_nerr (nerr st) st = st.
Proof. by destruct st. Qed.

Lemma set_nerr_set_nerr (n m : nat) (st : locals) : set_nerr n (set_nerr m st) = set_nerr n st.
Proof. done. Qed.

Section Recdump.

Context {Y : Type}.
Variable args : Args.t.
Variable dbfile : Datafile.

Lemma recdump_iter_failure (i : nat) (e : exn) (st : locals) (tr : list (event Y)) :
  Args.debug args = false ->
  readrec dbfile i = Raise e -> e <> IndexError ->
  recdump_iter args dbfile i st tr =
  Some (Ok (if 5 <? nerr st + 1 then Break else Continue, set_nerr (nerr st + 1) st),
        tr ++ [Print (RecError i e)]).
Proof.
  intros Hdebug Hread Hne. unfold recdump_iter. rewrite Hread.
  destruct e; try done; unfold bind, print; rewrite Hdebug;
    cbn [set_nerr nerr]; by destruct (5 <? nerr st + 1).
Qed.


Lemma recdump_iter_out_of_range (i : nat) (st : locals) (tr : list (event Y)) :
  readrec dbfile i = Raise IndexError ->
  recdump_iter args dbfile i st tr = Some (Ok (Break, st), tr).
Proof. intros Hread. unfold recdump_iter. by rewrite Hread. Qed.

Lemma recdump_loop_out_of_range (i : nat) (idxs : list nat) (st : locals)
  (tr : list (event Y)) :
  readrec dbfile i = Raise IndexError ->
  recdump_loop args dbfile (i :: idxs) st tr = Some (Ok st, tr).
Proof.
  intros Hread. cbn [recdump_loop]. unfold bind.
  by rewrite recdump_iter_out_of_range.
Qed.

(** C9. A read that raises [IndexError] ends the sweep at once: the
    iteration asks for a break with the local variables unchanged (the
    failure counter is not incremented) and nothing printed, the loop
    returns normally whatever indices follow, and this also holds with
    [--debug]. *)
Theorem recdump_index_error (i : nat) (idxs : list nat) (st : locals) (tr : list (event Y)) :
  readrec dbfile i = Raise IndexError ->
  recdump_iter args dbfile i st tr = Some (Ok (Break, st), tr) /\
  recdump_loop args dbfile (i :: idxs) st tr = Some (Ok st, tr).
Proof.
  intros Hread. split.
  - by apply recdump_iter_out_of_range.
  - by apply recdump_loop_out_of_range.
Qed.



End Recdump.

Lemma recdump_index_error_witness :
  let args := Example.args 10 false false true in
  let dbfile := datafile_of_slots [Present [x41]] in
  recdump_iter (Y := Empty_set) args dbfile 2 locals_init [] = Some (Ok (Break, locals_init), []) /\
  recdump_loop (Y := Empty_set) args dbfile (2 :: [3; 4]) locals_init [] = Some (Ok locals_init, []).
Proof.
  intros args dbfile.
  apply (recdump_index_error args dbfile 2 [3; 4] locals_init []).
  reflexivity.
Defined.

(** With [--debug] the whole raw sweep over a store of one record still
    returns normally when it reaches record 2. *)
Example recdump_past_the_end :
  recdump (Y := Empty_set) (Example.database [] [Present [x41]])
    (Example.args 10 false false true) [] =
  Some (Ok tt, [Print (RecData 1 [x41])]).
Proof. by vm_compute. Qed.


(** On that store the sweep prints record 6 after the five failures, stops
    at record 12, the sixth failure of the second run, and never reads
    record 13. *)
Example recdump_sixth_failure_in_a_row :
  let e := Exception "bad record" in
  recdump (Y := Empty_set)
    (Example.database []
       (Example.five_broken ++ replicate 6 (Unreadable e) ++ [Present [x42]]))
    (Example.args 20 false false false) [] =
  Some (Ok tt,
        Print <$> ([RecError 1 e; RecError 2 e; RecError 3 e; RecError 4 e; RecError 5 e;
                    RecData 6 [x41];
                    RecError 7 e; RecError 8 e; RecError 9 e; RecError 10 e;
                    RecError 11 e; RecError 12 e])).
Proof. by vm_compute. Qed.


(** ** The pattern scan *)

Lemma bytes_find_lower (b : byte) (data : bytes) : (-1 <= bytes_find b data)%Z.
Proof.
  induction data as [|c data IH]; simpl; [done|].
  case_bool_decide; [done|]. destruct (Z.ltb_spec (bytes_find b data) 0); lia.
Qed.

(** [bytes_find] returns the offset of the first occurrence. *)
Lemma bytes_find_first (b : byte) (data : bytes) (k : nat) :
  bytes_find b data = Z.of_nat k <-> first_at b data k.
Proof.
  revert k. induction data as [|c data IH]; intros k; simpl.
  { split; [lia|]. by intros [? _]. }
  case_bool_decide as Hc.
  - subst c. split.
    + intros Hk. assert (k = 0) as -> by lia. split; [done|]. intros j Hj. lia.
    + intros [Hk Hfirst]. destruct k as [|k]; [done|].
      by destruct (Hfirst 0); [lia|].
  - pose proof (bytes_find_lower b data).
    destruct (Z.ltb_spec (bytes_find b data) 0) as [Hneg|Hpos].
    + split; [lia|]. intros [Hk Hfirst]. destruct k as [|k].
      { simpl in Hk. congruence. }
      assert (first_at b data k) as Hk'.
      { split; [done|]. intros j Hj. apply (Hfirst (S j)). lia. }
      apply IH in Hk'. lia.
    + split.
      * intros Hk. destruct k as [|k]; [lia|].
        assert (bytes_find b data = Z.of_nat k) as [Hk1 Hk2]%IH by lia.
        split; [done|]. intros [|j] Hj; simpl; [congruence|]. apply Hk2. lia.
      * intros [Hk Hfirst]. destruct k as [|k].
        { simpl in Hk. congruence. }
        assert (first_at b data k) as Hk'.
        { split; [done|]. intros j Hj. apply (Hfirst (S j)). lia. }
        apply IH in Hk'. lia.
Qed.

Lemma bytes_find_positive (b : byte) (data : bytes) :
  (0 < bytes_find b data)%Z <-> exists k, 0 < k /\ first_at b data k.
Proof.
  split.
  - intros Hpos. exists (Z.to_nat (bytes_find b data)). split; [lia|].
    apply bytes_find_first. lia.
  - intros (k & Hk & Hfirst%bytes_find_first). lia.
Qed.

Lemma find1d_hit_spec (data : bytes) :
  find1d_hit (Some data) = true <-> marker_first_nonzero data.
Proof.
  unfold marker_first_nonzero. destruct data as [|c data].
  { split; [done|]. by intros (k & _ & [[? _]|[? _]]). }
  unfold find1d_hit.
  rewrite orb_true_iff, !Z.ltb_lt, !bytes_find_positive. split.
  - intros [(k & Hk & H)|(k & Hk & H)]; exists k; auto.
  - intros (k & Hk & [H|H]); [left|right]; by exists k.
Qed.

Section PatternScan.

Context {Y : Type}.
Variable args : Args.t.
Variable dbfile : Datafile.

(** The sweep gets to the record after [pre] when no six reads in a row
    fail; [nerr st] failures count with a run at the start of [pre]. *)
Lemma recdump_loop_find1d_reach (pre : list nat) (i : nat) (idxs : list nat) (data : bytes)
  (st : locals) (tr : list (event Y)) :
  Args.find1d args = true ->
  Forall (fun j =>
            (exists d, readrec dbfile j = Ok d /\
                       forall data', d = Some data' -> ~ marker_first_nonzero data') \/
            (exists e, readrec dbfile j = Raise e /\ e <> IndexError /\
                       Args.debug args = false)) pre ->
  (forall l1 run l2,
     pre = l1 ++ run ++ l2 ->
     Forall (fun j => exists e, readrec dbfile j = Raise e) run ->
     length run + match l1 with [] => nerr st | _ :: _ => 0 end <= 5) ->
  readrec dbfile i = Ok (Some data) ->
  marker_first_nonzero data ->
  exists n,
    recdump_loop args dbfile (pre ++ i :: idxs) st tr =
    Some (Ok (set_nerr n st),
          tr ++ (Print <$> failure_lines dbfile pre ++ [Found1d i data])).
Proof.
  intros Hmode Hpre Hruns Hread Hhit%find1d_hit_spec. revert st tr Hruns.
  induction pre as [|j pre IH]; intros st tr Hruns.
  - exists (nerr st). rewrite set_nerr_same.
    cbn [app recdump_loop]. unfold bind at 1, recdump_iter.
    by rewrite Hread, Hmode, Hhit.
  - apply Forall_cons in Hpre as [Hj Hpre]. specialize (IH Hpre).
    cbn [app recdump_loop]. unfold bind at 1.
    destruct Hj as [(d & Hj & Hmiss)|(e & Hj & Hne & Hdebug)].
    + unfold recdump_iter. rewrite Hj, Hmode.
      assert (find1d_hit d = false) as ->.
      { destruct d as [data'|]; [|done].
        apply not_true_iff_false. rewrite find1d_hit_spec. by apply Hmiss. }
      unfold ret. destruct (IH (set_nerr 0 st) tr) as [n Hn].
      { intros l1 run l2 -> Hrun.
        specialize (Hruns (j :: l1) run l2 eq_refl Hrun). simpl in Hruns.
        destruct l1; simpl; lia. }
      exists n. rewrite Hn, set_nerr_set_nerr.
      unfold failure_lines. cbn [omap list_omap]. by rewrite Hj.
    + rewrite (recdump_iter_failure args dbfile j e) by done.
      assert (nerr st + 1 <= 5) as Hle.
      { specialize (Hruns [] [j] pre eq_refl). simpl in Hruns.
        assert (1 + nerr st <= 5); [|lia]. apply Hruns. repeat constructor. by exists e. }
      destruct (Nat.ltb_spec 5 (nerr st + 1)); [lia|].
      destruct (IH (set_nerr (nerr st + 1) st) (tr ++ [Print (RecError j e)])) as [n Hn].
      { intros l1 run l2 -> Hrun. cbn [set_nerr nerr]. destruct l1 as [|x l1].
        - specialize (Hruns [] (j :: run) l2 eq_refl). simpl in Hruns.
          assert (S (length run + nerr st) <= 5); [|lia].
          apply Hruns. constructor; [by exists e|done].
        - specialize (Hruns (j :: x :: l1) run l2 eq_refl Hrun). simpl in Hruns. lia. }
      exists n. rewrite Hn, set_nerr_set_nerr.
      unfold failure_lines. cbn [omap list_omap]. rewrite Hj.
      cbn [app]. by rewrite fmap_cons, <- app_assoc.
Qed.

(** C2, as the code has it. In the pattern scan the sweep ends at the
    first record in which the first occurrence of 0x1d, or the first
    occurrence of 0x1b, is at a non-zero offset: that record is printed and
    no later index is processed. Before it the sweep passes silently over
    the records that are read and in which neither marker has its first
    occurrence past the first byte, and it logs the records whose read fails
    with anything but [IndexError]; it gets to the match when, wherever a
    read fails, [--debug] is off, and no six reads in a row fail (the
    failure counter being zero at the start). *)
Theorem recdump_find1d_halts (pre : list nat) (i : nat) (idxs : list nat) (data : bytes)
  (st : locals) (tr : list (event Y)) :
  Args.find1d args = true ->
  nerr st = 0 ->
  Forall (fun j =>
            (exists d, readrec dbfile j = Ok d /\
                       forall data', d = Some data' -> ~ marker_first_nonzero data') \/
            (exists e, readrec dbfile j = Raise e /\ e <> IndexError /\
                       Args.debug args = false)) pre ->
  (forall l1 run l2,
     pre = l1 ++ run ++ l2 ->
     Forall (fun j => exists e, readrec dbfile j = Raise e) run ->
     length run <= 5) ->
  readrec dbfile i = Ok (Some data) ->
  marker_first_nonzero data ->
  exists n,
    recdump_loop args dbfile (pre ++ i :: idxs) st tr =
    Some (Ok (set_nerr n st),
          tr ++ (Print <$> failure_lines dbfile pre ++ [Found1d i data])).
Proof.
  intros Hmode Hnerr Hpre Hruns Hread Hhit.
  apply recdump_loop_find1d_reach; try done.
  intros l1 run l2 Heq Hrun. specialize (Hruns l1 run l2 Heq Hrun).
  rewrite Hnerr. destruct l1; lia.
Qed.

End PatternScan.

Lemma recdump_find1d_halts_witness :
  let args := Example.args 10 true false false in
  let e := Exception "bad record" in
  let dbfile := datafile_of_slots [Present [x01; x41]; Unreadable e; Deleted;
                                   Present [x01; x41; x1b]; Present [x01; x1d]] in
  exists n,
    recdump_loop (Y := Empty_set) args dbfile ([1; 2; 3] ++ 4 :: [5; 6]) locals_init [] =
    Some (Ok (set_nerr n locals_init),
          [] ++ (Print <$> failure_lines dbfile [1; 2; 3] ++ [Found1d 4 [x01; x41; x1b]])).
Proof.
  intros args e dbfile.
  apply (recdump_find1d_halts args dbfile [1; 2; 3] 4 [5; 6] [x01; x41; x1b] locals_init []).
  - reflexivity.
  - reflexivity.
  - constructor; [|constructor; [|constructor; [|constructor]]].
    + left. eexists. split; [reflexivity|]. intros data' [= <-].
      rewrite <- find1d_hit_spec. by vm_compute.
    + right. exists e. by split_and!.
    + left. eexists. split; [reflexivity|]. by intros data' [=].
  - intros l1 run l2 Heq _. apply (f_equal length) in Heq.
    rewrite !length_app in Heq. simpl in Heq. lia.
  - reflexivity.
  - exists 2. split; [lia|]. right. split; [reflexivity|].
    intros [|[|j]] Hj; [by vm_compute..|lia].
Defined.

(** On that store the whole sweep prints the failure of record 2 and then
    the match, record 4; record 5, which also holds a marker, is not
    printed. *)
Example recdump_find1d_after_failure :
  let e := Exception "bad record" in
  recdump (Y := Empty_set)
    (Example.database [] [Present [x01; x41]; Unreadable e; Deleted;
                          Present [x01; x41; x1b]; Present [x01; x1d]])
    (Example.args 10 true false false) [] =
  Some (Ok tt, [Print (RecError 2 e); Print (Found1d 4 [x01; x41; x1b])]).
Proof. by vm_compute. Qed.

(** Record 1 holds 0x1d at offset 1, but also at offset 0, where [find]
    stops: the sweep does not end at record 1, it goes on and ends at
    record 2. *)
Lemma recdump_find1d_marker_at_both_offsets :
  [x1d; x1d] !! 1 = Some x1d /\
  recdump (Y := Empty_set) (Example.database [] [Present [x1d; x1d]; Present [x00; x1d]])
    (Example.args 10 true false false) [] =
  Some (Ok tt, [Print (Found1d 2 [x00; x1d])]).
Proof. split; by vm_compute. Qed.

(** ** Statistics *)

Lemma count_bytes_lookup (data : bytes) (xref : list nat) (k : nat) :
  count_bytes data xref !! k =
  (fun c => c + length (filter (fun b => Byte.to_nat b = k) data)) <$> xref !! k.
Proof.
  revert xref. induction data as [|b data IH]; intros xref.
  { simpl. destruct (xref !! k) as [c|]; simpl; [|done]. f_equal. lia. }
  unfold count_bytes in *. cbn [foldl]. rewrite IH, list_lookup_alter, filter_cons.
  destruct (decide (Byte.to_nat b = k)) as [->|Hne].
  - destruct (xref !! k) as [c|]; simpl; [|done]. f_equal. lia.
  - done.
Qed.

Lemma iter_alter_lookup (n k : nat) :
  k < 256 ->
  Nat.iter n (alter S 5) (replicate 256 0) !! k = Some (if decide (k = 5) then n else 0).
Proof.
  intros Hk. induction n as [|n IH].
  - change (Nat.iter 0 (alter S 5) (replicate 256 0)) with (replicate 256 0).
    rewrite lookup_replicate_2 by done. by destruct (decide (k = 5)).
  - rewrite Nat.iter_succ, list_lookup_alter. destruct (decide (5 = k)) as [<-|Hne].
    + rewrite IH. by rewrite decide_True.
    + rewrite IH. by rewrite !decide_False.
Qed.

Lemma print_xref_run {Y : Type} (xref : list nat) (tr : list (event Y)) :
  print_xref xref tr = Some (Ok tt, tr ++ (Print <$> xref_lines xref)).
Proof.
  unfold print_xref, xref_lines. generalize (imap (fun k v => (k, v)) xref).
  intros l. revert tr. induction l as [|[k v] l IH]; intros tr.
  { simpl. by rewrite app_nil_r. }
  cbn [for_each omap list_omap snd fst]. unfold bind at 1, when.
  destruct (v =? 0); simpl.
  - apply IH.
  - unfold print at 1. rewrite IH. by rewrite <- app_assoc.
Qed.

Section Statistics.

Context {Y : Type}.
Variable args : Args.t.

Lemma recdump_iter_stats (dbfile : Datafile) (i : nat) (data : option bytes) (st : locals)
  (tr : list (event Y)) :
  Args.find1d args = false -> Args.stats args = true ->
  readrec dbfile i = Ok data ->
  recdump_iter args dbfile i st tr =
  Some (Ok (Continue, set_nerr 0 (count_record data st)), tr).
Proof.
  intros Hfind Hstats Hread. unfold recdump_iter. by rewrite Hread, Hfind, Hstats.
Qed.

(** [n] records in a row that start with 0x05. *)
Lemma recdump_loop_tableid (dbfile : Datafile) (j n : nat) (rest : list nat) (st : locals)
  (tr : list (event Y)) :
  Args.find1d args = false -> Args.stats args = true ->
  (forall i, j <= i < j + n -> exists data, readrec dbfile (S i) = Ok (Some (x05 :: data))) ->
  exists st',
    recdump_loop args dbfile (seq (S j) n ++ rest) st tr = recdump_loop args dbfile rest st' tr /\
    tabidxref st' = Nat.iter n (alter S 5) (tabidxref st) /\
    nr_recnone st' = nr_recnone st /\ nr_recempty st' = nr_recempty st.
Proof.
  intros Hfind Hstats. revert j st. induction n as [|n IH]; intros j st Hrecs.
  { by exists st. }
  destruct (Hrecs j) as [data Hj]; [lia|].
  destruct (IH (S j) (set_nerr 0 (count_record (Some (x05 :: data)) st)))
    as (st' & Hloop & Htab & Hnone & Hempty).
  { intros i Hi. apply Hrecs. lia. }
  exists st'. split_and!; [|by rewrite Htab, Nat.iter_succ_r|done|done].
  cbn [seq app recdump_loop]. unfold bind at 1.
  by rewrite (recdump_iter_stats dbfile (S j) (Some (x05 :: data))).
Qed.

(** C8. In statistics mode a record that is read goes to exactly one of
    three places: a deleted record to the counter of deleted records, an
    empty record to the counter of empty records, any other record to the two
    histograms, the first byte counted in [tabidxref] and each later byte in
    [bytexref]. Over a store of N records that all start with 0x05 the sweep
    ends with N in bucket 5 of [tabidxref], zero in its other buckets and
    zero in both counters, and the statistics printed for the table ids are
    the single line for bucket 5. *)
Theorem recdump_stats_routing :
  Args.find1d args = false -> Args.stats args = true ->
  (forall dbfile i data st (tr : list (event Y)),
     readrec dbfile i = Ok data ->
     recdump_iter args dbfile i st tr =
     Some (Ok (Continue, set_nerr 0 (count_record data st)), tr)) /\
  (forall st,
     let st' := count_record None st in
     nr_recnone st' = nr_recnone st + 1 /\ nr_recempty st' = nr_recempty st /\
     tabidxref st' = tabidxref st /\ bytexref st' = bytexref st) /\
  (forall st,
     let st' := count_record (Some []) st in
     nr_recnone st' = nr_recnone st /\ nr_recempty st' = nr_recempty st + 1 /\
     tabidxref st' = tabidxref st /\ bytexref st' = bytexref st) /\
  (forall b0 rest st,
     let st' := count_record (Some (b0 :: rest)) st in
     nr_recnone st' = nr_recnone st /\ nr_recempty st' = nr_recempty st /\
     (forall k, tabidxref st' !! k =
                (fun c => if decide (k = Byte.to_nat b0) then c + 1 else c)
                  <$> tabidxref st !! k) /\
     (forall k, bytexref st' !! k =
                (fun c => c + length (filter (fun b => Byte.to_nat b = k) rest))
                  <$> bytexref st !! k)) /\
  (forall recs : list bytes,
     Forall (fun data => exists rest, data = x05 :: rest) recs ->
     (Z.of_nat (length recs) <= Args.maxrecs args)%Z ->
     let dbfile := datafile_of_slots (Present <$> recs) in
     exists st,
       recdump_loop (Y := Y) args dbfile (seq 1 (Z.to_nat (Args.maxrecs args))) locals_init []
         = Some (Ok st, []) /\
       nr_recnone st = 0 /\ nr_recempty st = 0 /\
       (forall k, k < 256 ->
                  tabidxref st !! k = Some (if decide (k = 5) then length recs else 0)) /\
       xref_lines (tabidxref st) =
         if decide (length recs = 0) then [] else [StatCount (length recs) 5]).
Proof.
  intros Hfind Hstats. split_and!.
  - intros. by apply recdump_iter_stats.
  - done.
  - done.
  - intros b0 rest st st'. split_and!; [done|done| |].
    + intros k. cbn [st' count_record tabidxref]. rewrite list_lookup_alter.
      destruct (decide (Byte.to_nat b0 = k)) as [<-|Hne].
      * destruct (tabidxref st !! Byte.to_nat b0); simpl; [|done].
        rewrite decide_True by done. f_equal. lia.
      * destruct (tabidxref st !! k); simpl; [|done].
        by rewrite decide_False.
    + intros k. apply count_bytes_lookup.
  - intros recs Hrecs Hmax dbfile.
    set (n := length recs). set (m := Z.to_nat (Args.maxrecs args)).
    assert (Hm : m = n + (m - n)) by lia.
    destruct (recdump_loop_tableid dbfile 0 n (seq (1 + n) (m - n)) locals_init [])
      as (st & Hloop & Htab & Hnone & Hempty); [done|done| |].
    { intros i Hi. unfold dbfile. cbn [datafile_of_slots readrec].
      rewrite list_lookup_fmap.
      destruct (lookup_lt_is_Some_2 recs i) as [data Hdata]; [unfold n in Hi; lia|].
      rewrite Hdata. simpl.
      destruct (proj1 (Forall_lookup _ _) Hrecs i data Hdata) as [rest ->].
      by exists rest. }
    exists st. rewrite Hm, seq_app, Hloop. split_and!; [|done|done| |].
    + destruct (m - n) as [|r]; [done|].
      cbn [seq]. apply recdump_loop_out_of_range.
      unfold dbfile. cbn [datafile_of_slots readrec]. cbn [Nat.add].
      rewrite list_lookup_fmap, lookup_ge_None_2; [done|]. unfold n. lia.
    + intros k Hk. rewrite Htab. by apply iter_alter_lookup.
    + rewrite Htab. cbn [locals_init tabidxref]. fold n. clear.
      induction n as [|n IH]; [done|]. clear IH. rewrite decide_False by done.
      assert (Nat.iter (S n) (alter S 5) (replicate 256 0)
              = <[5 := S n]> (replicate 256 0)) as ->; [|done].
      induction n as [|n IH]; [done|].
      rewrite Nat.iter_succ, IH. done.
Qed.

End Statistics.

Lemma recdump_stats_routing_witness :
  let args := Example.args 3 false true false in
  let recs := [[x05; x41]; [x05]; [x05; x41; x42]] in
  let dbfile := datafile_of_slots (Present <$> recs) in
  exists st,
    recdump_loop (Y := Empty_set) args dbfile (seq 1 (Z.to_nat (Args.maxrecs args)))
      locals_init [] = Some (Ok st, []) /\
    nr_recnone st = 0 /\ nr_recempty st = 0 /\
    (forall k, k < 256 ->
               tabidxref st !! k = Some (if decide (k = 5) then length recs else 0)) /\
    xref_lines (tabidxref st) =
      if decide (length recs = 0) then [] else [StatCount (length recs) 5].
Proof.
  intros args recs dbfile.
  apply (proj2 (proj2 (proj2 (proj2
           (recdump_stats_routing (Y := Empty_set) args eq_refl eq_refl)))) recs).
  - repeat constructor; by eexists.
  - simpl. lia.
Defined.

(** What the raw sweep prints for three such records. *)
Example recdump_stats_three_records :
  recdump (Y := Empty_set)
    (Example.database [] (Present <$> [[x05; x41]; [x05]; [x05; x41; x42]]))
    (Example.args 10 false true false) [] =
  Some (Ok tt, [Print (TableIdStats 0 0); Print (StatCount 3 5); Print ByteStats;
                Print (StatCount 2 65); Print (StatCount 1 66)]).
Proof. by vm_compute. Qed.

(** ** Round trip, from the blob *)

Lemma byte_of_N_mod (n : N) (b : byte) : (n mod 256)%N = Byte.to_N b -> byte_of_N n = b.
Proof. intros H. unfold byte_of_N. by rewrite H, Byte.of_to_N. Qed.

Lemma readbytes_inv (n : N) (rd rd' : ByteReader.t) (v : bytes) :
  ByteReader.readbytes n rd = Ok (v, rd') -> rd = v ++ rd' /\ N.of_nat (length v) = n.
Proof.
  unfold ByteReader.readbytes. destruct (N.leb_spec n (N.of_nat (length rd))); [|done].
  intros [= <- <-]. split; [by rewrite take_drop|].
  rewrite length_take. lia.
Qed.

Lemma readdword_inv (rd rd' : ByteReader.t) (w : N) :
  ByteReader.readdword rd = Ok (w, rd') -> rd = le32 w ++ rd' /\ (w < 2 ^ 32)%N.
Proof.
  destruct rd as [|b0 [|b1 [|b2 [|b3 rd]]]]; simpl; try done.
  intros [= <- <-].
  pose proof (Byte.to_N_bounded b0) as Hb0. pose proof (Byte.to_N_bounded b1) as Hb1.
  pose proof (Byte.to_N_bounded b2) as Hb2. pose proof (Byte.to_N_bounded b3) as Hb3.
  set (n0 := Byte.to_N b0) in *. set (n1 := Byte.to_N b1) in *.
  set (n2 := Byte.to_N b2) in *. set (n3 := Byte.to_N b3) in *.
  change (2 ^ 32)%N with 4294967296%N. split; [|lia].
  unfold le32. cbn [app].
  assert (E0 : byte_of_N (n0 + 256 * (n1 + 256 * (n2 + 256 * n3))) = b0).
  { apply byte_of_N_mod. symmetry.
    apply N.mod_unique with (n1 + 256 * (n2 + 256 * n3))%N; lia. }
  assert (E1 : byte_of_N ((n0 + 256 * (n1 + 256 * (n2 + 256 * n3))) / 256) = b1).
  { replace ((n0 + 256 * (n1 + 256 * (n2 + 256 * n3))) / 256)%N
      with (n1 + 256 * (n2 + 256 * n3))%N by (apply N.div_unique with n0; lia).
    apply byte_of_N_mod. symmetry. apply N.mod_unique with (n2 + 256 * n3)%N; lia. }
  assert (E2 : byte_of_N ((n0 + 256 * (n1 + 256 * (n2 + 256 * n3))) / 65536) = b2).
  { replace ((n0 + 256 * (n1 + 256 * (n2 + 256 * n3))) / 65536)%N
      with (n2 + 256 * n3)%N by (apply N.div_unique with (n0 + 256 * n1)%N; lia).
    apply byte_of_N_mod. symmetry. apply N.mod_unique with n3; lia. }
  assert (E3 : byte_of_N ((n0 + 256 * (n1 + 256 * (n2 + 256 * n3))) / 16777216) = b3).
  { replace ((n0 + 256 * (n1 + 256 * (n2 + 256 * n3))) / 16777216)%N
      with n3 by (apply N.div_unique with (n0 + 256 * (n1 + 256 * n2))%N; lia).
    apply byte_of_N_mod. apply N.mod_small. lia. }
  by rewrite E0, E1, E2, E3.
Qed.

Lemma readname_inv (rd rd' : ByteReader.t) (keyname : string) :
  ByteReader.readname rd = Ok (keyname, rd') -> rd = encode_name keyname ++ rd'.
Proof.
  unfold ByteReader.readname. destruct rd as [|b rd]; simpl; [done|].
  destruct (ByteReader.readbytes _ rd) as [[name rd2]|] eqn:E; [|done].
  intros [= <- <-]. apply readbytes_inv in E as [-> Hlen].
  unfold encode_name. cbn [app].
  rewrite list_byte_of_string_of_list_byte. f_equal.
  rewrite <- (length_list_byte_of_string (string_of_list_byte name)).
  rewrite list_byte_of_string_of_list_byte, Hlen. symmetry. apply byte_of_N_of_to_N.
Qed.

Lemma decode_loop_trace {Y : Type} (self : Database) (fuel : nat) (rd : ByteReader.t)
  (d : dict) (tr tr' : list (event Y)) (r : result dict) :
  decode_loop fuel self rd d tr = Some (r, tr') -> exists new, tr' = tr ++ new.
Proof.
  rewrite decode_loop_frame.
  destruct (decode_loop fuel self rd d []) as [[r0 new]|]; [|done].
  intros [= _ <-]. by exists new.
Qed.

Lemma encode_db_definition_snoc (d : dict) (k : string) (v : bytes) :
  encode_db_definition (d ++ [(k, v)]) =
  encode_db_definition d ++ encode_name k ++ le32 (2 ^ 31 + N.of_nat (length v)) ++ v.
Proof.
  unfold encode_db_definition, encode_entries.
  rewrite fmap_app, bind_app. f_equal. simpl. by rewrite app_nil_r.
Qed.

(** Without a structure file no reference can be resolved. A blob that is
    then decoded without a warning has inline entries only, with distinct
    keys, and the encoder gives it back. *)
Lemma decode_loop_inline_only {Y : Type} (self : Database) (fuel : nat) (rd : ByteReader.t)
  (d0 d : dict) :
  stru self = None ->
  decode_loop (Y := Y) fuel self rd d0 [] = Some (Ok d, []) ->
  encode_db_definition d = encode_db_definition d0 ++ rd.
Proof.
  intros Hstru. revert rd d0. induction fuel as [|fuel IH]; intros rd d0.
  { simpl. destruct rd; [|done]. intros [= <-]. by rewrite app_nil_r. }
  rewrite decode_loop_unfold. destruct rd as [|b rd0] eqn:Erd.
  { intros [= <-]. by rewrite app_nil_r. }
  rewrite <- Erd. replace (ByteReader.eof rd) with false by (by subst rd). clear Erd.
  destruct (ByteReader.readname rd) as [[k rd1]|e] eqn:E1; [|done].
  apply readname_inv in E1 as ->. cbn zeta.
  destruct (dict_mem k d0) eqn:Hk.
  { intros H. assert (exists new, [] = ([] ++ [@Print Y (WarnDuplicateKey k)]) ++ new) as [new Hnew].
    { destruct (ByteReader.readdword rd1) as [[w rd2]|e]; [|done].
      destruct (negb (N.shiftr w 31 =? 0)%N).
      - destruct (ByteReader.readbytes _ rd2) as [[v rd3]|e]; [|done].
        by apply decode_loop_trace in H.
      - unfold call_readrec in H. by rewrite Hstru in H. }
    done. }
  apply dict_mem_false in Hk.
  destruct (ByteReader.readdword rd1) as [[w rd2]|e] eqn:E2; [|done].
  apply readdword_inv in E2 as [-> Hw].
  destruct (N.eqb_spec (N.shiftr w 31) 0) as [|Hbit]; cbn [negb].
  { unfold call_readrec. by rewrite Hstru. }
  destruct (ByteReader.readbytes _ rd2) as [[v rd3]|e] eqn:E3; [|done].
  apply readbytes_inv in E3 as [-> Hlen].
  assert (Hw31 : w = (2 ^ 31 + N.of_nat (length v))%N).
  { rewrite Hlen. change 0x7FFFFFFF%N with (N.ones 31). rewrite N.land_ones.
    rewrite N.shiftr_div_pow2 in Hbit.
    change (2 ^ 31)%N with 2147483648%N in *. change (2 ^ 32)%N with 4294967296%N in *.
    pose proof (N.div_mod' w 2147483648).
    assert (w / 2147483648 < 2)%N by (apply N.Div0.div_lt_upper_bound; lia).
    set (q := (w / 2147483648)%N) in *. set (r := (w mod 2147483648)%N) in *.
    lia. }
  intros ->%IH. rewrite dict_set_fresh, encode_db_definition_snoc by done.
  rewrite <- Hw31. by rewrite <- !app_assoc.
Qed.

Lemma decode_inline_only_roundtrip {Y : Type} (self : Database) (data : bytes) (d : dict) :
  stru self = None ->
  decode_db_definition (Y := Y) self data [] = Some (Ok d, []) ->
  encode_db_definition d = data.
Proof. intros Hstru H. by apply (decode_loop_inline_only self) in H. Qed.

(** * Further properties of the decoder *)

(** X1. The [while not rd.eof()] loop of [decode_db_definition] ends on
    every blob, with every database and after any output: the decoder
    returns a mapping or raises, and what was printed before stays at the
    head of the trace. *)
Theorem decode_db_definition_terminates {Y : Type} (self : Database) (data : bytes)
  (tr : list (event Y)) :
  exists r new, decode_db_definition self data tr = Some (r, tr ++ new).
Proof.
  destruct (decode_db_definition_total self data tr) as [[r tr'] H].
  destruct (decode_loop_trace _ _ _ _ _ _ _ H) as [new ->]. by exists r, new.
Qed.

Lemma decode_loop_NoDup {Y : Type} (self : Database) (fuel : nat) (rd : ByteReader.t)
  (d0 d : dict) (tr tr' : list (event Y)) :
  NoDup d0.*1 ->
  decode_loop fuel self rd d0 tr = Some (Ok d, tr') ->
  NoDup d.*1.
Proof.
  revert rd d0 tr. induction fuel as [|fuel IH]; intros rd d0 tr Hnd.
  { simpl. destruct (ByteReader.eof rd); [|done]. by intros [= <- _]. }
  rewrite decode_loop_unfold.
  destruct (ByteReader.eof rd); [by intros [= <- _]|].
  destruct (ByteReader.readname rd) as [[k rd1]|e]; [|done]. cbn zeta.
  destruct (ByteReader.readdword rd1) as [[w rd2]|e]; [|done].
  destruct (negb (N.shiftr w 31 =? 0)%N).
  - destruct (ByteReader.readbytes _ rd2) as [[v rd3]|e]; [|done].
    apply IH. by apply dict_set_NoDup.
  - destruct (call_readrec _ _) as [[refdata|]|e]; [|done..].
    apply IH. by apply dict_set_NoDup.
Qed.

(** X2. Whatever the blob holds, a mapping returned by
    [decode_db_definition] has no key twice. *)
Theorem decode_db_definition_keys_distinct {Y : Type} (self : Database) (data : bytes)
  (d : dict) (tr tr' : list (event Y)) :
  decode_db_definition self data tr = Some (Ok d, tr') ->
  NoDup d.*1.
Proof. apply decode_loop_NoDup. constructor. Qed.

Lemma decode_db_definition_keys_distinct_witness :
  NoDup ([("A", [x02]); ("B", [])] : dict).*1.
Proof.
  apply (decode_db_definition_keys_distinct (Y := Empty_set)
           {| stru := None; index := None; bank := None; sys := None |}
           (encode_db_definition [("A", [x01]); ("B", []); ("A", [x02])])
           [("A", [x02]); ("B", [])] []
           [Print (WarnDuplicateKey "A")]).
  by vm_compute.
Defined.

(** A line that the decoder prints. *)
Lemma decode_loop_warnings {Y : Type} (self : Database) (fuel : nat) (rd : ByteReader.t)
  (d0 : dict) (r : result dict) (tr tr' : list (event Y)) :
  decode_loop fuel self rd d0 tr = Some (r, tr') ->
  exists ws, tr' = tr ++ (Print <$> ws) /\
             Forall (fun l => l = WarnRefdataTag \/ exists k, l = WarnDuplicateKey k) ws.
Proof.
  revert rd d0 tr. induction fuel as [|fuel IH]; intros rd d0 tr.
  { simpl. destruct (ByteReader.eof rd); [|done]. intros [= _ <-].
    exists []. by rewrite app_nil_r. }
  rewrite decode_loop_unfold.
  assert (Hnil : exists ws, tr = tr ++ (@Print Y <$> ws) /\
            Forall (fun l => l = WarnRefdataTag \/ exists k, l = WarnDuplicateKey k) ws).
  { exists []. by rewrite app_nil_r. }
  destruct (ByteReader.eof rd); [by intros [= _ <-]|].
  destruct (ByteReader.readname rd) as [[k rd1]|e]; [|by intros [= _ <-]]. cbn zeta.
  set (w1 := if dict_mem k d0 then [WarnDuplicateKey k] else []).
  assert (Hw1 : Forall (fun l => l = WarnRefdataTag \/ exists k, l = WarnDuplicateKey k) w1).
  { unfold w1. destruct (dict_mem k d0); [|constructor].
    apply Forall_singleton. right. by exists k. }
  replace (if dict_mem k d0 then tr ++ [Print (WarnDuplicateKey k)] else tr)
    with (tr ++ (@Print Y <$> w1))
    by (unfold w1; destruct (dict_mem k d0); [done | by rewrite app_nil_r]).
  assert (Hstop : exists ws, tr ++ (@Print Y <$> w1) = tr ++ (Print <$> ws) /\
            Forall (fun l => l = WarnRefdataTag \/ exists k, l = WarnDuplicateKey k) ws).
  { by exists w1. }
  destruct (ByteReader.readdword rd1) as [[w rd2]|e]; [|by intros [= _ <-]].
  destruct (negb (N.shiftr w 31 =? 0)%N).
  - destruct (ByteReader.readbytes _ rd2) as [[v rd3]|e]; [|by intros [= _ <-]].
    intros (ws & -> & Hws)%IH. exists (w1 ++ ws).
    rewrite fmap_app, app_assoc. split; [done|]. by apply Forall_app.
  - destruct (call_readrec _ _) as [[refdata|]|e]; [|by intros [= _ <-]..].
    set (w2 := if lacks_tag x04 refdata then [WarnRefdataTag] else []).
    replace (if lacks_tag x04 refdata then (tr ++ (Print <$> w1)) ++ [Print WarnRefdataTag]
             else tr ++ (Print <$> w1))
      with (tr ++ (@Print Y <$> (w1 ++ w2)))
      by (unfold w2; rewrite fmap_app, app_assoc; destruct (lacks_tag x04 refdata);
          [done | by rewrite app_nil_r]).
    intros (ws & -> & Hws)%IH. exists ((w1 ++ w2) ++ ws).
    split; [by rewrite (fmap_app _ (w1 ++ w2) ws), app_assoc|].
    apply Forall_app. split; [|done]. apply Forall_app. split; [done|].
    unfold w2. destruct (lacks_tag x04 refdata); [|constructor].
    apply Forall_singleton. by left.
Qed.

(** X3. [decode_db_definition] yields nothing, and every line that it
    prints is one of its two warnings: a duplicate key or a referenced
    record without the 0x04 tag. *)
Theorem decode_db_definition_prints_warnings {Y : Type} (self : Database) (data : bytes)
  (r : result dict) (tr : list (event Y)) :
  decode_db_definition self data [] = Some (r, tr) ->
  yields tr = [] /\
  Forall (fun l => l = WarnRefdataTag \/ exists k, l = WarnDuplicateKey k) (printed tr).
Proof.
  intros H. split.
  - by apply decode_loop_yields in H.
  - apply decode_loop_warnings in H as (ws & -> & Hws).
    by rewrite app_nil_l, printed_Print.
Qed.

Lemma decode_db_definition_prints_warnings_witness :
  yields (Y := Empty_set) [Print (WarnDuplicateKey "A")] = [] /\
  Forall (fun l => l = WarnRefdataTag \/ exists k, l = WarnDuplicateKey k)
         (printed (Y := Empty_set) [Print (WarnDuplicateKey "A")]).
Proof.
  apply (decode_db_definition_prints_warnings
           {| stru := None; index := None; bank := None; sys := None |}
           (encode_db_definition [("A", [x01]); ("B", []); ("A", [x02])])
           (Ok [("A", [x02]); ("B", [])])).
  by vm_compute.
Defined.

(** ** Truncated blobs *)

Lemma readbytes_short (n : N) (rd : ByteReader.t) :
  (N.of_nat (length rd) < n)%N -> ByteReader.readbytes n rd = Raise EOFError.
Proof.
  intros Hn. unfold ByteReader.readbytes.
  destruct (N.leb_spec n (N.of_nat (length rd))); [lia|done].
Qed.

Lemma readdword_short (rd : ByteReader.t) :
  length rd < 4 -> ByteReader.readdword rd = Raise EOFError.
Proof. destruct rd as [|b0 [|b1 [|b2 [|b3 rd]]]]; simpl; [done..|lia]. Qed.

Lemma inline_descriptor (n : N) :
  (n < 2 ^ 31)%N ->
  N.shiftr (2 ^ 31 + n) 31 = 1%N /\ N.land (2 ^ 31 + n) 0x7FFFFFFF = n.
Proof.
  intros Hn. rewrite N.shiftr_div_pow2.
  change 0x7FFFFFFF%N with (N.ones 31). rewrite N.land_ones.
  change (2 ^ 31)%N with 2147483648%N in *. split.
  - symmetry. apply N.div_unique with n; lia.
  - symmetry. apply N.mod_unique with 1%N; lia.
Qed.

(** X4. A blob that ends inside an entry is refused: after any number of
    complete entries, a cut anywhere inside the next one (in the name, in the
    descriptor or in an inline value) makes [decode_db_definition] raise
    [EOFError]; no mapping is returned, and the warnings of the complete
    entries have been printed. *)
Theorem decode_truncated_entry {Y : Type} (self : Database) (es : list (string * entry))
  (ke : string * entry) (n : nat) :
  Forall (entry_ok self) es ->
  entry_ok self ke ->
  0 < n < length (encode_entry ke) ->
  exists w,
    decode_db_definition (Y := Y) self (encode_entries es ++ take n (encode_entry ke)) [] =
    Some (Raise EOFError, (Print <$> (decode_entries self es []).2) ++ w).
Proof.
  intros Hes [Hk He] Hn. destruct ke as [k e]. cbn [fst snd] in *.
  unfold decode_db_definition. rewrite decode_loop_entries by done.
  rewrite app_nil_l.
  set (d := (decode_entries self es []).1). set (tr := Print <$> (decode_entries self es []).2).
  set (p := take n (encode_entry (k, e))).
  assert (Hp : length p = n) by (unfold p; rewrite length_take; lia).
  destruct (length p) as [|fuel] eqn:Hfuel; [lia|].
  rewrite decode_loop_unfold.
  assert (Hsplit : p = take n (encode_name k) ++
                       take (n - S (String.length k))
                            (match e with
                             | Inline v => le32 (2 ^ 31 + N.of_nat (length v)) ++ v
                             | Reference recno => le32 recno
                             end)).
  { unfold p, encode_entry. cbn [fst snd]. rewrite take_app. do 2 f_equal.
    unfold encode_name. cbn [length]. by rewrite length_list_byte_of_string. }
  assert (Hlen : length (encode_entry (k, e)) =
                 S (String.length k) + match e with
                                       | Inline v => 4 + length v
                                       | Reference _ => 4
                                       end).
  { unfold encode_entry, encode_name. cbn [fst snd]. rewrite length_app. cbn [length].
    rewrite length_list_byte_of_string. by destruct e; [rewrite length_app|]. }
  destruct (decide (n <= String.length k)) as [Hshort|Hlong].
  - (* the cut is in the name *)
    replace (n - S (String.length k)) with 0 in Hsplit by lia.
    rewrite take_0, app_nil_r in Hsplit.
    destruct n as [|n']; [lia|]. unfold encode_name in Hsplit.
    rewrite firstn_cons in Hsplit. rewrite Hsplit. cbn [ByteReader.eof].
    unfold ByteReader.readname. cbn [ByteReader.readbyte].
    rewrite byte_of_N_to_N, N.mod_small by lia.
    rewrite readbytes_short; [by exists []; rewrite app_nil_r|].
    rewrite length_take, length_list_byte_of_string. lia.
  - rewrite take_ge in Hsplit
      by (unfold encode_name; cbn [length]; rewrite length_list_byte_of_string; lia).
    rewrite Hsplit, eof_encode_name, readname_encode_name by done. cbn zeta.
    set (tr1 := if dict_mem k d then tr ++ [Print (WarnDuplicateKey k)] else tr).
    assert (Htr1 : exists w, tr1 = tr ++ w).
    { unfold tr1. destruct (dict_mem k d); [by eexists|]. exists []. by rewrite app_nil_r. }
    destruct Htr1 as [w Hw]. exists w. rewrite <- Hw.
    set (m := n - S (String.length k)) in *.
    destruct (decide (m < 4)) as [Hm|Hm].
    + (* the cut is in the descriptor *)
      rewrite readdword_short; [done|].
      rewrite length_take. lia.
    + (* the cut is in the inline value *)
      destruct e as [v|recno]; [|lia].
      rewrite take_app. replace (take m (le32 _)) with (le32 (2 ^ 31 + N.of_nat (length v)))
        by (symmetry; apply take_ge; simpl; lia).
      rewrite readdword_le32
        by (change (2 ^ 31)%N with 2147483648%N in *;
            change (2 ^ 32)%N with 4294967296%N; lia).
      destruct (inline_descriptor (N.of_nat (length v)) He) as [-> ->].
      cbn [N.eqb negb]. rewrite readbytes_short; [done|].
      rewrite length_take. cbn [le32 length]. lia.
Qed.

Lemma decode_truncated_entry_witness :
  let self := {| stru := None; index := None; bank := None; sys := None |} in
  exists w,
    decode_db_definition (Y := Empty_set) self
      (encode_entries [("A", Inline [x01])] ++ take 7 (encode_entry ("Name", Inline [x02; x03])))
      [] =
    Some (Raise EOFError, (Print <$> (decode_entries self [("A", Inline [x01])] []).2) ++ w).
Proof.
  intros self.
  apply (decode_truncated_entry self [("A", Inline [x01])] ("Name", Inline [x02; x03]) 7).
  - repeat constructor; simpl; lia.
  - split; simpl; lia.
  - simpl. lia.
Defined.

(** ** References that cannot be resolved *)

(** X5. A reference whose record cannot be delivered stops the decoder at
    that entry, whatever bytes follow it: a deleted record gives [TypeError]
    (the slice of [None]), an exception of the read (out of range, a broken
    record, a missing structure file) is passed on unchanged. No mapping is
    returned; the warnings of the entries before, and the duplicate-key
    warning of this entry if its key was seen before, have been printed. *)
Theorem decode_unresolved_reference {Y : Type} (self : Database)
  (pre : list (string * entry)) (k : string) (recno : N) (rest : bytes) (err : exn) :
  Forall (entry_ok self) pre ->
  String.length k < 256 ->
  (recno < 2 ^ 31)%N ->
  match call_readrec (stru self) (N.to_nat recno) with
  | Ok None => err = TypeError
  | Raise e => err = e
  | Ok (Some _) => False
  end ->
  decode_db_definition (Y := Y) self
    (encode_entries pre ++ (encode_name k ++ le32 recno ++ rest)) [] =
  Some (Raise err,
        Print <$> ((decode_entries self pre []).2 ++
                   if dict_mem k (decode_entries self pre []).1
                   then [WarnDuplicateKey k] else [])).
Proof.
  intros Hpre Hk Hr Herr. unfold decode_db_definition.
  rewrite decode_loop_entries by done. rewrite app_nil_l.
  set (d := (decode_entries self pre []).1).
  destruct (length (encode_name k ++ le32 recno ++ rest)) as [|fuel] eqn:Hfuel; [done|].
  rewrite decode_loop_unfold, eof_encode_name, readname_encode_name by done. cbn zeta.
  rewrite readdword_le32
    by (change (2 ^ 31)%N with 2147483648%N in *; change (2 ^ 32)%N with 4294967296%N; lia).
  rewrite N.shiftr_div_pow2, N.div_small by done. cbn [N.eqb negb].
  rewrite fmap_app.
  destruct (call_readrec (stru self) (N.to_nat recno)) as [[refdata|]|e]; [done| |];
    subst err; destruct (dict_mem k d); by rewrite ?app_nil_r.
Qed.

Lemma decode_unresolved_reference_witness :
  let self := Example.database [Deleted] [] in
  decode_db_definition (Y := Empty_set) self
    (encode_entries [("A", Inline [x01])] ++ (encode_name "A" ++ le32 1 ++ [xff; xff])) [] =
  Some (Raise TypeError,
        Print <$> ((decode_entries self [("A", Inline [x01])] []).2 ++
                   if dict_mem "A" (decode_entries self [("A", Inline [x01])] []).1
                   then [WarnDuplicateKey "A"] else [])).
Proof.
  intros self.
  apply (decode_unresolved_reference self [("A", Inline [x01])] "A" 1 [xff; xff] TypeError).
  - repeat constructor; simpl; lia.
  - simpl. lia.
  - reflexivity.
  - reflexivity.
Defined.

(** ** Warnings, keys and values of a well-formed blob *)

Lemma dict_set_length (k : string) (v : bytes) (d : dict) :
  length (dict_set k v d) = if dict_mem k d then length d else S (length d).
Proof.
  rewrite <- !(length_fmap fst), dict_set_keys.
  destruct (dict_mem k d); [done|]. rewrite length_app. simpl. lia.
Qed.

Lemma entry_lines_no_duplicate (self : Database) (e : entry) :
  filter (fun l => is_duplicate_warning l = true) (entry_lines self e) = [].
Proof.
  apply filter_none. intros l Hl. apply entry_lines_tag in Hl. by subst l.
Qed.

Lemma decode_entries_count (self : Database) (es : list (string * entry)) (d : dict) :
  length (decode_entries self es d).1 +
  length (filter (fun l => is_duplicate_warning l = true) (decode_entries self es d).2) =
  length d + length es.
Proof.
  revert d. induction es as [|[k e] es IH]; intros d; [simpl; lia|].
  cbn [decode_entries fst snd length]. rewrite !filter_app, !length_app.
  rewrite entry_lines_no_duplicate.
  specialize (IH (dict_set k (default [] (entry_value self e)) d)).
  rewrite dict_set_length in IH. destruct (dict_mem k d); simpl in *; lia.
Qed.

Lemma decode_entries_tag_lines (self : Database) (es : list (string * entry)) (d : dict) :
  filter (fun l => l = WarnRefdataTag) (decode_entries self es d).2 =
  es ≫= fun ke => entry_lines self ke.2.
Proof.
  revert d. induction es as [|[k e] es IH]; intros d; [done|].
  cbn [decode_entries snd]. rewrite bind_cons, !filter_app, IH. cbn [snd].
  replace (filter _ (if dict_mem k d then [WarnDuplicateKey k] else [])) with (@nil line)
    by (by destruct (dict_mem k d)).
  cbn [app]. f_equal. clear.
  assert (H := entry_lines_tag self e).
  induction (entry_lines self e) as [|l ls IH]; [done|].
  rewrite filter_cons_True by (apply H; by left). f_equal.
  apply IH. intros l' Hl'. apply H. by right.
Qed.

(** X6. Decoding a blob of well-formed entries accounts for every entry:
    the number of entries is the number of keys of the mapping plus the
    number of duplicate-key warnings, and the tag warnings are exactly those
    of the references to records that do not start with 0x04, one each. *)
Theorem decode_warning_count {Y : Type} (self : Database) (es : list (string * entry)) :
  Forall (entry_ok self) es ->
  exists d tr,
    decode_db_definition (Y := Y) self (encode_entries es) [] = Some (Ok d, tr) /\
    length es =
      length d + length (filter (fun l => is_duplicate_warning l = true) (printed tr)) /\
    filter (fun l => l = WarnRefdataTag) (printed tr) = es ≫= fun ke => entry_lines self ke.2.
Proof.
  intros Hes. eexists _, _. split; [by apply decode_db_definition_entries|].
  rewrite printed_Print, decode_entries_tag_lines. split; [|done].
  pose proof (decode_entries_count self es []) as H. simpl in H. lia.
Qed.

Lemma decode_warning_count_witness :
  let self := Example.database [Present [x05; x41]; Present [x04; x42]] [] in
  let es := [("A", Inline [x01]); ("B", Reference 1); ("A", Reference 2); ("B", Inline [])] in
  exists d tr,
    decode_db_definition (Y := Empty_set) self (encode_entries es) [] = Some (Ok d, tr) /\
    length es =
      length d + length (filter (fun l => is_duplicate_warning l = true) (printed tr)) /\
    filter (fun l => l = WarnRefdataTag) (printed tr) = es ≫= fun ke => entry_lines self ke.2.
Proof.
  intros self es. apply (decode_warning_count self es).
  repeat (apply Forall_cons; split; [split; [simpl; lia|]|]).
  - simpl. lia.
  - split; [lia|]. by eexists.
  - split; [lia|]. by eexists.
  - simpl. lia.
  - constructor.
Defined.

Lemma decode_entries_keys_order (self : Database) (es : list (string * entry)) :
  (decode_entries self es []).1.*1 = reverse (remove_dups (reverse es.*1)).
Proof.
  induction es as [|[k e] es IH] using rev_ind; [done|].
  rewrite decode_entries_app. cbn [decode_entries fst].
  rewrite dict_set_keys, IH, fmap_app, reverse_app. cbn [fmap list_fmap fst reverse].
  change (reverse [k]) with [k]. cbn [app remove_dups].
  destruct (dict_mem k (decode_entries self es []).1) eqn:Hmem.
  - apply dict_mem_true in Hmem. rewrite decode_entries_keys in Hmem.
    destruct Hmem as [Hmem|Hmem]; [by apply elem_of_nil in Hmem|].
    destruct (decide_rel elem_of k (reverse es.*1)) as [|Hn]; [done|].
    by rewrite elem_of_reverse in Hn.
  - apply dict_mem_false in Hmem. rewrite decode_entries_keys in Hmem.
    destruct (decide_rel elem_of k (reverse es.*1)) as [Hin|]; [|by rewrite reverse_cons].
    rewrite elem_of_reverse in Hin. tauto.
Qed.

Lemma decode_entries_last_value (self : Database) (es : list (string * entry)) (k : string) :
  Forall (entry_ok self) es ->
  dict_get k (decode_entries self es []).1 =
  last (filter (fun ke => ke.1 = k) es) ≫= fun ke => entry_value self ke.2.
Proof.
  induction es as [|[k' e'] es IH] using rev_ind; intros Hes; [done|].
  apply Forall_app in Hes as [Hes [Hke _]%Forall_cons].
  rewrite decode_entries_app. cbn [decode_entries fst]. rewrite filter_app.
  assert (Hval : entry_value self e' = Some (default [] (entry_value self e'))).
  { destruct Hke as [_ He]. cbn [snd] in He. destruct e' as [v|recno]; [done|].
    destruct He as [_ [v ->]]. done. }
  destruct (decide (k' = k)) as [->|Hne].
  - rewrite dict_get_set_eq, filter_cons_True by done.
    rewrite filter_nil, last_snoc. simpl. by rewrite <- Hval.
  - rewrite dict_get_set_ne by done. rewrite filter_cons_False by done.
    rewrite filter_nil, app_nil_r. by apply IH.
Qed.

(** X7. The mapping decoded from a blob of well-formed entries lists the
    keys in the order of their first occurrence in the blob, and gives each
    key the value of its last occurrence. *)
Theorem decode_order_and_last_value {Y : Type} (self : Database)
  (es : list (string * entry)) :
  Forall (entry_ok self) es ->
  exists d tr,
    decode_db_definition (Y := Y) self (encode_entries es) [] = Some (Ok d, tr) /\
    d.*1 = reverse (remove_dups (reverse es.*1)) /\
    forall k, dict_get k d =
              last (filter (fun ke => ke.1 = k) es) ≫= fun ke => entry_value self ke.2.
Proof.
  intros Hes. eexists _, _. split; [by apply decode_db_definition_entries|].
  split; [apply decode_entries_keys_order|].
  intros k. by apply decode_entries_last_value.
Qed.

Lemma decode_order_and_last_value_witness :
  let self := Example.database [Present [x05; x41]; Present [x04; x42]] [] in
  let es := [("A", Inline [x01]); ("B", Reference 1); ("A", Reference 2); ("B", Inline [])] in
  exists d tr,
    decode_db_definition (Y := Empty_set) self (encode_entries es) [] = Some (Ok d, tr) /\
    d.*1 = reverse (remove_dups (reverse es.*1)) /\
    forall k, dict_get k d =
              last (filter (fun ke => ke.1 = k) es) ≫= fun ke => entry_value self ke.2.
Proof.
  intros self es. apply (decode_order_and_last_value self es).
  repeat (apply Forall_cons; split; [split; [simpl; lia|]|]).
  - simpl. lia.
  - split; [lia|]. by eexists.
  - split; [lia|]. by eexists.
  - simpl. lia.
  - constructor.
Defined.

(** X8. On a database without structure file, where no reference can be
    resolved, two blobs that are decoded without a warning to the same
    mapping are the same blob. *)
Theorem decode_clean_injective {Y : Type} (self : Database) (data1 data2 : bytes) (d : dict) :
  stru self = None ->
  decode_db_definition (Y := Y) self data1 [] = Some (Ok d, []) ->
  decode_db_definition (Y := Y) self data2 [] = Some (Ok d, []) ->
  data1 = data2.
Proof.
  intros Hstru H1 H2.
  apply (decode_inline_only_roundtrip self) in H1, H2; [|done..]. congruence.
Qed.

Lemma decode_clean_injective_witness :
  encode_db_definition [("A", [x01]); ("B", [])] =
  [x01; x41; x01; x00; x00; x80; x01; x01; x42; x00; x00; x00; x80].
Proof.
  apply (decode_clean_injective (Y := Empty_set)
           {| stru := None; index := None; bank := None; sys := None |}
           _ _ [("A", [x01]); ("B", [])]).
  - reflexivity.
  - by vm_compute.
  - by vm_compute.
Defined.

(** * Further properties of the table catalog *)

Lemma filter_exclusive {A} (P Q R : A -> Prop) `{!forall x, Decision (P x)}
  `{!forall x, Decision (Q x)} `{!forall x, Decision (R x)} (l : list A) :
  (forall x, R x <-> P x \/ Q x) -> (forall x, P x -> Q x -> False) ->
  filter P l ++ filter Q l ≡ₚ filter R l.
Proof.
  intros HR Hex. induction l as [|x l IH]; [done|].
  rewrite !filter_cons.
  destruct (decide (P x)) as [HP|HP], (decide (Q x)) as [HQ|HQ].
  - by destruct (Hex x).
  - rewrite decide_True by (apply HR; by left). simpl. by rewrite IH.
  - rewrite decide_True by (apply HR; by right).
    rewrite <- Permutation_middle. by rewrite IH.
  - rewrite decide_False by (rewrite HR; tauto). done.
Qed.

Section TableCatalog.

Context {TableDefinition : Type}.
Variable TableDefinition_init : bytes -> result TableDefinition.
Variable isnumeric : string -> bool.

Lemma enumerate_tables_run (self : Database) (files : bool) (dbinfo : bytes)
  (r : result dict) (tr1 : list (event TableDefinition)) :
  call_readrec (stru self) 1 = Ok (Some dbinfo) ->
  decode_db_definition self (drop 1 dbinfo) [] = Some (r, tr1) ->
  enumerate_tables TableDefinition_init isnumeric self files [] =
  match r with
  | Ok dbdef =>
      for_each dbdef (enumerate_tables_iter TableDefinition_init isnumeric files)
        ((if lacks_tag x03 dbinfo then [Print WarnDbinfoTag] else []) ++ tr1)
  | Raise e => Some (Raise e, (if lacks_tag x03 dbinfo then [Print WarnDbinfoTag] else []) ++ tr1)
  end.
Proof.
  intros Hread Hdec. unfold enumerate_tables, bind at 1, lift. rewrite Hread.
  unfold bind at 1.
  replace (when (lacks_tag x03 dbinfo) (print WarnDbinfoTag) [])
    with (Some (@Ok unit tt, if lacks_tag x03 dbinfo
                             then [@Print TableDefinition WarnDbinfoTag] else []))
    by (unfold when; by destruct (lacks_tag x03 dbinfo)).
  unfold bind at 1. rewrite decode_db_definition_frame, Hdec. by destruct r.
Qed.

(** X9. [enumerate_tables] yields no table when the database definition
    cannot be had: a deleted record 1 gives [TypeError], an exception of the
    read of record 1 (also a missing structure file) is passed on, and so is
    an exception of the decoder, after the warnings printed up to there. *)
Theorem enumerate_tables_no_definition (self : Database) (files : bool) (err : exn) :
  match call_readrec (stru self) 1 with
  | Ok None => err = TypeError
  | Raise e => err = e
  | Ok (Some dbinfo) =>
      exists tr1, decode_db_definition (Y := TableDefinition) self (drop 1 dbinfo) []
                  = Some (Raise err, tr1)
  end ->
  exists tr,
    enumerate_tables TableDefinition_init isnumeric self files [] = Some (Raise err, tr) /\
    yields tr = [].
Proof.
  destruct (call_readrec (stru self) 1) as [[dbinfo|]|e] eqn:Hread.
  - intros [tr1 Hdec]. eexists. split.
    + by rewrite (enumerate_tables_run self files dbinfo (Raise err) tr1).
    + apply decode_loop_yields in Hdec. rewrite yields_app, Hdec.
      by destruct (lacks_tag x03 dbinfo).
  - intros ->. exists []. unfold enumerate_tables, bind, lift. by rewrite Hread.
  - intros ->. exists []. unfold enumerate_tables, bind, lift. by rewrite Hread.
Qed.

(** X10. The two modes of [enumerate_tables] share out the 'Base' +
    numeric entries of the definition: when both generators run to their end,
    the tables yielded with [files] and those yielded without are, taken
    together, the tables of all the entries whose key passes the test of the
    loop, each entry once. *)
Theorem enumerate_tables_modes_partition (self : Database)
  (trT trF : list (event TableDefinition)) :
  enumerate_tables TableDefinition_init isnumeric self true [] = Some (Ok tt, trT) ->
  enumerate_tables TableDefinition_init isnumeric self false [] = Some (Ok tt, trF) ->
  exists (dbinfo : bytes) (dbdef selT selF : dict) (tr1 : list (event TableDefinition)),
    call_readrec (stru self) 1 = Ok (Some dbinfo) /\
    decode_db_definition self (drop 1 dbinfo) [] = Some (Ok dbdef, tr1) /\
    Forall2 (fun kv t => TableDefinition_init kv.2 = Ok t) selT (yields trT) /\
    Forall2 (fun kv t => TableDefinition_init kv.2 = Ok t) selF (yields trF) /\
    selT ++ selF ≡ₚ filter (fun kv => base_numeric isnumeric kv.1 = true) dbdef.
Proof.
  intros HT HF.
  destruct (call_readrec (stru self) 1) as [[dbinfo|]|e] eqn:Hread.
  2,3: unfold enumerate_tables, bind, lift in HT; by rewrite Hread in HT.
  destruct (decode_db_definition_total (Y := TableDefinition) self (drop 1 dbinfo) [])
    as [[r tr1] Hdec].
  rewrite (enumerate_tables_run self true dbinfo r tr1) in HT by done.
  rewrite (enumerate_tables_run self false dbinfo r tr1) in HF by done.
  destruct r as [dbdef|e]; [|done].
  apply enumerate_tables_loop in HT as (selT & tsT & -> & HselT & _ & HallT).
  apply enumerate_tables_loop in HF as (selF & tsF & -> & HselF & _ & HallF).
  assert (Hy : forall ts : list TableDefinition,
    yields (((if lacks_tag x03 dbinfo then [Print WarnDbinfoTag] else []) ++ tr1)
            ++ (Yield <$> ts)) = ts).
  { intros ts. apply decode_loop_yields in Hdec.
    rewrite !yields_app, Hdec, yields_Yield. by destruct (lacks_tag x03 dbinfo). }
  exists dbinfo, dbdef, selT, selF, tr1. rewrite !Hy. split_and!; [done..|].
  rewrite (HallT eq_refl), (HallF eq_refl). apply filter_exclusive.
  - intros [k v]. cbn [fst]. unfold wanted, base_numeric.
    destruct (String.prefix "Base" k && isnumeric (str_from 4 k)),
      (String.eqb (str_from 4 k) "000"); simpl; intuition congruence.
  - intros [k v]. cbn [fst]. unfold wanted.
    destruct (String.prefix "Base" k && isnumeric (str_from 4 k)),
      (String.eqb (str_from 4 k) "000"); simpl; congruence.
Qed.

End TableCatalog.

Lemma enumerate_tables_no_definition_witness :
  let self := Example.database [Present [x07; x03; x41; x42]] [] in
  exists tr,
    enumerate_tables Example.TableDefinition_init Example.isnumeric self true []
      = Some (Raise EOFError, tr) /\
    yields tr = [].
Proof.
  intros self.
  apply (enumerate_tables_no_definition Example.TableDefinition_init Example.isnumeric
           self true EOFError).
  exists []. by vm_compute.
Defined.

Lemma enumerate_tables_modes_partition_witness :
  let dbdef := [("Base000", [x00]); ("Name", [x41]); ("Base001", [x01]); ("Base017", [x11])] in
  let self := Example.database [Present (x03 :: encode_db_definition dbdef)] [] in
  let trT := [Yield {| Example.tableid := 0; Example.fields := [x00] |}] in
  let trF := [Yield {| Example.tableid := 1; Example.fields := [x01] |};
              Yield {| Example.tableid := 17; Example.fields := [x11] |}] in
  exists (dbinfo : bytes) (dbdef selT selF : dict) (tr1 : list (event Example.table)),
    call_readrec (stru self) 1 = Ok (Some dbinfo) /\
    decode_db_definition self (drop 1 dbinfo) [] = Some (Ok dbdef, tr1) /\
    Forall2 (fun kv t => Example.TableDefinition_init kv.2 = Ok t) selT (yields trT) /\
    Forall2 (fun kv t => Example.TableDefinition_init kv.2 = Ok t) selF (yields trF) /\
    selT ++ selF ≡ₚ filter (fun kv => base_numeric Example.isnumeric kv.1 = true) dbdef.
Proof.
  intros dbdef self trT trF.
  apply (enumerate_tables_modes_partition Example.TableDefinition_init Example.isnumeric
           self trT trF); by vm_compute.
Defined.

(** * Further properties of the filtered sweeps *)

Lemma for_each_app {Y A} (l1 l2 : list A) (body : A -> M Y unit) (tr : list (event Y)) :
  for_each (l1 ++ l2) body tr =
  match for_each l1 body tr with
  | Some (Ok _, tr') => for_each l2 body tr'
  | other => other
  end.
Proof.
  revert tr. induction l1 as [|x l1 IH]; intros tr; [done|].
  cbn [app for_each]. unfold bind.
  destruct (body x tr) as [[[[]|e] tr']|]; [apply IH|done..].
Qed.

Lemma printed_app {Y} (tr1 tr2 : list (event Y)) :
  printed (tr1 ++ tr2) = printed tr1 ++ printed tr2.
Proof. apply omap_app. Qed.

Section Sweeps.

Context {TableDefinition Fields Record : Type}.
Variable tableid : TableDefinition -> N.
Variable fields : TableDefinition -> Fields.
Variable Record_init : nat -> Fields -> bytes -> result Record.

Lemma enumerate_files_iter_run (self : Database) (bankf : Datafile)
  (table : TableDefinition) (i : nat) (data : option bytes) (tr : list (event (nat * bytes))) :
  bank self = Some bankf ->
  readrec bankf i = Ok data ->
  enumerate_files_iter tableid self table i tr =
  Some (Ok tt, tr ++ from_option (fun hit => [Yield (hit.1, drop 1 hit.2)]) []
                       (hit_at tableid bankf table i)).
Proof.
  intros Hbank Hread. unfold enumerate_files_iter, hit_at, bind, lift, call_readrec.
  rewrite Hbank, Hread. destruct data as [[|b0 rest]|]; try (by rewrite app_nil_r).
  destruct (Byte.to_N b0 =? tableid table)%N; [done|by rewrite app_nil_r].
Qed.

Lemma enumerate_files_loop (self : Database) (bankf : Datafile)
  (table : TableDefinition) (s n : nat) (tr : list (event (nat * bytes))) :
  bank self = Some bankf ->
  (forall i, s <= i < s + n -> exists data, readrec bankf i = Ok data) ->
  for_each (seq s n) (enumerate_files_iter tableid self table) tr =
  Some (Ok tt, tr ++ (Yield <$> ((fun hit => (hit.1, drop 1 hit.2))
                                   <$> omap (hit_at tableid bankf table) (seq s n)))).
Proof.
  intros Hbank. revert s tr. induction n as [|n IH]; intros s tr Hread.
  { simpl. by rewrite app_nil_r. }
  destruct (Hread s) as [data Hs]; [lia|].
  cbn [seq for_each]. unfold bind at 1.
  rewrite (enumerate_files_iter_run self bankf table s data) by done.
  rewrite IH by (intros i Hi; apply Hread; lia).
  cbn [omap list_omap]. rewrite <- app_assoc. do 3 f_equal.
  by destruct (hit_at tableid bankf table s).
Qed.

(** X11. When every record of the bank can be read, [enumerate_files]
    runs to its end, prints nothing, and yields, in ascending order of
    record number, the pair of the number and the bytes after the first one
    for exactly the present records that start with the id of the table. *)
Theorem enumerate_files_sweep (self : Database) (bankf : Datafile)
  (table : TableDefinition) :
  bank self = Some bankf ->
  (forall i, 1 <= i <= tadidx_len bankf -> exists data, readrec bankf i = Ok data) ->
  exists hits : list (nat * bytes),
    StronglySorted lt hits.*1 /\
    (forall i data,
       (i, data) ∈ hits <->
       1 <= i <= tadidx_len bankf /\ readrec bankf i = Ok (Some data) /\
       exists b0 rest, data = b0 :: rest /\ Byte.to_N b0 = tableid table) /\
    enumerate_files tableid self table [] =
    Some (Ok tt, Yield <$> ((fun hit => (hit.1, drop 1 hit.2)) <$> hits)).
Proof.
  intros Hbank Hread.
  exists (omap (hit_at tableid bankf table) (seq 1 (tadidx_len bankf))). split_and!.
  - apply hits_sorted.
  - intros i data. rewrite hits_elem_of.
    split; intros (Hi & H); (split; [lia|done]).
  - unfold enumerate_files, nrofrecords, bind at 1, lift. rewrite Hbank.
    by rewrite (enumerate_files_loop self bankf) by (try done; intros i Hi; apply Hread; lia).
Qed.

(** X12. A record that cannot be read ends both filtered sweeps with the
    exception of the read: the read is outside the [try] block. What the
    records before it gave has been yielded or reported, the records after it
    are not looked at. *)
Theorem enumerate_read_failure (self : Database) (bankf : Datafile)
  (table : TableDefinition) (j : nat) (e : exn) :
  bank self = Some bankf ->
  1 <= j <= tadidx_len bankf ->
  readrec bankf j = Raise e ->
  (forall i, 1 <= i < j -> exists data, readrec bankf i = Ok data) ->
  exists hits : list (nat * bytes),
    StronglySorted lt hits.*1 /\
    (forall i data,
       (i, data) ∈ hits <->
       1 <= i < j /\ readrec bankf i = Ok (Some data) /\
       exists b0 rest, data = b0 :: rest /\ Byte.to_N b0 = tableid table) /\
    enumerate_records tableid fields Record_init self table [] =
    Some (Raise e,
          hits ≫= fun hit =>
            match Record_init hit.1 (fields table) (drop 1 hit.2) with
            | Ok rec => [Yield rec]
            | Raise _ => [Print (RecordBroken hit.1 hit.2)]
            end) /\
    enumerate_files tableid self table [] =
    Some (Raise e, Yield <$> ((fun hit => (hit.1, drop 1 hit.2)) <$> hits)).
Proof.
  intros Hbank Hj Hfail Hread.
  exists (omap (hit_at tableid bankf table) (seq 1 (j - 1))).
  assert (Hseq : seq 1 (tadidx_len bankf) =
                 seq 1 (j - 1) ++ j :: seq (S j) (tadidx_len bankf - j)).
  { replace (tadidx_len bankf) with ((j - 1) + S (tadidx_len bankf - j)) at 1 by lia.
    rewrite seq_app. cbn [seq]. do 2 f_equal; [lia|f_equal; lia]. }
  split_and!.
  - apply hits_sorted.
  - intros i data. rewrite hits_elem_of.
    split; intros (Hi & H); (split; [lia|done]).
  - unfold enumerate_records, nrofrecords, bind at 1, lift. rewrite Hbank, Hseq.
    rewrite for_each_app.
    rewrite (enumerate_records_loop tableid fields Record_init self bankf)
      by (try done; intros i Hi; apply Hread; lia).
    cbn [for_each]. unfold bind at 1, enumerate_records_iter, bind, lift, call_readrec.
    by rewrite Hbank, Hfail.
  - unfold enumerate_files, nrofrecords, bind at 1, lift. rewrite Hbank, Hseq.
    rewrite for_each_app.
    rewrite (enumerate_files_loop self bankf) by (try done; intros i Hi; apply Hread; lia).
    cbn [for_each]. unfold bind at 1, enumerate_files_iter, bind, lift, call_readrec.
    by rewrite Hbank, Hfail.
Qed.

(** X13. Over a bank whose records can all be read, every record that
    [enumerate_files] yields for a table is either yielded or reported as
    broken by [enumerate_records] for that table: the counts agree. *)
Theorem enumerate_records_files_count (self : Database) (bankf : Datafile)
  (table : TableDefinition) :
  bank self = Some bankf ->
  (forall i, 1 <= i <= tadidx_len bankf -> exists data, readrec bankf i = Ok data) ->
  exists trR trF,
    enumerate_records tableid fields Record_init self table [] = Some (Ok tt, trR) /\
    enumerate_files tableid self table [] = Some (Ok tt, trF) /\
    length (yields trF) = length (yields trR) + length (printed trR) /\
    printed trF = [].
Proof.
  intros Hbank Hread. eexists _, _. split_and!.
  - unfold enumerate_records, nrofrecords, bind at 1, lift. rewrite Hbank.
    by rewrite (enumerate_records_loop tableid fields Record_init self bankf)
      by (try done; intros i Hi; apply Hread; lia).
  - unfold enumerate_files, nrofrecords, bind at 1, lift. rewrite Hbank.
    by rewrite (enumerate_files_loop self bankf) by (try done; intros i Hi; apply Hread; lia).
  - rewrite !app_nil_l, yields_Yield, length_fmap.
    induction (omap (hit_at tableid bankf table) (seq 1 (tadidx_len bankf))) as [|hit hits IH];
      [done|].
    rewrite bind_cons, yields_app, printed_app, !length_app. cbn [length]. rewrite IH.
    unfold record_events.
    destruct (Record_init hit.1 (fields table) (drop 1 hit.2)); simpl; lia.
  - rewrite app_nil_l. generalize ((fun hit : nat * bytes => (hit.1, drop 1 hit.2)) <$>
      omap (hit_at tableid bankf table) (seq 1 (tadidx_len bankf))).
    intros l. by induction l.
Qed.

(** X14. The first byte of a record is at most 255: for a table whose id
    is above 255 neither sweep yields or prints anything, whatever the bank
    holds. *)
Theorem enumerate_large_tableid (self : Database) (table : TableDefinition)
  (rR rF : result unit) (trR : list (event Record)) (trF : list (event (nat * bytes))) :
  (255 < tableid table)%N ->
  enumerate_records tableid fields Record_init self table [] = Some (rR, trR) ->
  enumerate_files tableid self table [] = Some (rF, trF) ->
  trR = [] /\ trF = [].
Proof.
  intros Hid HR HF.
  assert (Hne : forall b0 : byte, (Byte.to_N b0 =? tableid table)%N = false).
  { intros b0. apply N.eqb_neq. pose proof (Byte.to_N_bounded b0). lia. }
  split.
  - unfold enumerate_records, bind at 1, lift in HR.
    destruct (nrofrecords self) as [n|e]; [|by injection HR as _ <-].
    revert HR. generalize (seq 1 n). intros l. induction l as [|i l IH]; simpl.
    { by intros [= _ <-]. }
    unfold bind at 1, enumerate_records_iter, bind, lift.
    destruct (call_readrec (bank self) i) as [[[|b0 rest]|]|e]; try done.
    + by rewrite Hne.
    + by intros [= _ <-].
  - unfold enumerate_files, bind at 1, lift in HF.
    destruct (nrofrecords self) as [n|e]; [|by injection HF as _ <-].
    revert HF. generalize (seq 1 n). intros l. induction l as [|i l IH]; simpl.
    { by intros [= _ <-]. }
    unfold bind at 1, enumerate_files_iter, bind, lift.
    destruct (call_readrec (bank self) i) as [[[|b0 rest]|]|e]; try done.
    + by rewrite Hne.
    + by intros [= _ <-].
Qed.

End Sweeps.

Lemma enumerate_files_sweep_witness :
  let slots := [Present [x01; x41]; Deleted; Present [x02; x42]; Present [x01]] in
  let self := Example.database [] slots in
  let table := {| Example.tableid := 1; Example.fields := [] |} in
  exists hits : list (nat * bytes),
    StronglySorted lt hits.*1 /\
    (forall i data,
       (i, data) ∈ hits <->
       1 <= i <= 4 /\ readrec (datafile_of_slots slots) i = Ok (Some data) /\
       exists b0 rest, data = b0 :: rest /\ Byte.to_N b0 = 1%N) /\
    enumerate_files Example.tableid self table [] =
    Some (Ok tt, Yield <$> ((fun hit => (hit.1, drop 1 hit.2)) <$> hits)).
Proof.
  intros slots self table.
  apply (enumerate_files_sweep Example.tableid self (datafile_of_slots slots) table).
  - reflexivity.
  - intros i Hi. simpl in Hi.
    destruct i as [|[|[|[|[|i]]]]]; [lia|by eexists..|lia].
Defined.

Lemma enumerate_read_failure_witness :
  let e := Exception "bad record" in
  let slots := [Present [x01; x41]; Unreadable e; Present [x01; x42]] in
  let self := Example.database [] slots in
  let table := {| Example.tableid := 1; Example.fields := [] |} in
  exists hits : list (nat * bytes),
    StronglySorted lt hits.*1 /\
    (forall i data,
       (i, data) ∈ hits <->
       1 <= i < 2 /\ readrec (datafile_of_slots slots) i = Ok (Some data) /\
       exists b0 rest, data = b0 :: rest /\ Byte.to_N b0 = 1%N) /\
    enumerate_records Example.tableid Example.fields Example.Record_init self table [] =
    Some (Raise e,
          hits ≫= fun hit =>
            match Example.Record_init hit.1 (Example.fields table) (drop 1 hit.2) with
            | Ok rec => [Yield rec]
            | Raise _ => [Print (RecordBroken hit.1 hit.2)]
            end) /\
    enumerate_files Example.tableid self table [] =
    Some (Raise e, Yield <$> ((fun hit => (hit.1, drop 1 hit.2)) <$> hits)).
Proof.
  intros e slots self table.
  apply (enumerate_read_failure Example.tableid Example.fields Example.Record_init
           self (datafile_of_slots slots) table 2 e).
  - reflexivity.
  - simpl. lia.
  - reflexivity.
  - intros i Hi. assert (i = 1) as -> by lia. by eexists.
Defined.

Lemma enumerate_records_files_count_witness :
  let slots := [Present [x01; xff]; Present [x01; x41]; Present [x02]] in
  let self := Example.database [] slots in
  let table := {| Example.tableid := 1; Example.fields := [] |} in
  exists trR trF,
    enumerate_records Example.tableid Example.fields Example.Record_init self table []
      = Some (Ok tt, trR) /\
    enumerate_files Example.tableid self table [] = Some (Ok tt, trF) /\
    length (yields trF) = length (yields trR) + length (printed trR) /\
    printed trF = [].
Proof.
  intros slots self table.
  apply (enumerate_records_files_count Example.tableid Example.fields Example.Record_init
           self (datafile_of_slots slots) table).
  - reflexivity.
  - intros i Hi. simpl in Hi.
    destruct i as [|[|[|[|i]]]]; [lia|by eexists..|lia].
Defined.

Lemma enumerate_large_tableid_witness :
  @nil (event Example.record) = [] /\ @nil (event (nat * bytes)) = [].
Proof.
  apply (enumerate_large_tableid Example.tableid Example.fields Example.Record_init
           (Example.database [] [Present [x01; x41]; Unreadable EOFError])
           {| Example.tableid := 300; Example.fields := [] |}
           (Raise EOFError) (Raise EOFError)).
  - reflexivity.
  - reflexivity.
  - reflexivity.
Defined.

(** * Further properties of the raw sweep *)

Section RawSweep.

Context {Y : Type}.
Variable args : Args.t.

Lemma recdump_iter_returns (dbfile : Datafile) (i : nat) (st : locals) (tr : list (event Y)) :
  Args.debug args = false ->
  exists fl st' new, recdump_iter args dbfile i st tr = Some (Ok (fl, st'), tr ++ new).
Proof.
  intros Hdebug. unfold recdump_iter.
  destruct (readrec dbfile i) as [data|e].
  - destruct (Args.find1d args).
    + destruct (find1d_hit data); [by eexists _, _, [_]|].
      eexists _, _, []. by rewrite app_nil_r.
    + destruct (negb (Args.stats args)); [by eexists _, _, [_]|].
      eexists _, _, []. by rewrite app_nil_r.
  - assert (H : exists fl st' new,
        (print (RecError i e) ;;
         if Args.debug args then raise e
         else if 5 <? nerr (set_nerr (nerr st + 1) st)
              then ret (Break, set_nerr (nerr st + 1) st)
              else ret (Continue, set_nerr (nerr st + 1) st)) tr
        = Some (Ok (fl, st'), tr ++ new)).
    { unfold bind, print. rewrite Hdebug.
      destruct (5 <? nerr (set_nerr (nerr st + 1) st)); by eexists _, _, [_]. }
    destruct e; try done. eexists _, _, []. by rewrite app_nil_r.
Qed.

Lemma recdump_loop_returns (dbfile : Datafile) (idxs : list nat) (st : locals)
  (tr : list (event Y)) :
  Args.debug args = false ->
  exists st' new, recdump_loop args dbfile idxs st tr = Some (Ok st', tr ++ new).
Proof.
  intros Hdebug. revert st tr. induction idxs as [|i idxs IH]; intros st tr.
  { eexists _, []. by rewrite app_nil_r. }
  cbn [recdump_loop]. unfold bind.
  destruct (recdump_iter_returns dbfile i st tr Hdebug) as (fl & st1 & new1 & ->).
  destruct fl.
  - destruct (IH st1 (tr ++ new1)) as (st' & new & ->).
    exists st', (new1 ++ new). by rewrite app_assoc.
  - by exists st1, new1.
Qed.

(** X15. Without [--debug], [recdump] never raises: whatever the
    database holds and whatever the other options are, it returns normally,
    and what was printed before stays at the head of the output. *)
Theorem recdump_returns (self : Database) (tr : list (event Y)) :
  Args.debug args = false ->
  exists new, recdump self args tr = Some (Ok tt, tr ++ new).
Proof.
  intros Hdebug. unfold recdump. fold (selected_file self args).
  destruct (selected_file self args) as [dbfile|]; [|by exists [Print DatNotFound]].
  destruct (Args.skipencrypted args && (encoding dbfile =? 3)%N);
    [by exists [Print SkippingEncrypted]|].
  unfold bind at 1.
  destruct (recdump_loop_returns dbfile (seq 1 (Z.to_nat (Args.maxrecs args))) locals_init tr
              Hdebug) as (st & new & ->).
  destruct (Args.stats args); [|by exists new].
  unfold when, bind, print. rewrite print_xref_run. unfold bind, print.
  rewrite print_xref_run. eexists. by rewrite <- !app_assoc.
Qed.

(** Past the last record of the store the sweep stops. *)
Lemma recdump_loop_past_end (dbfile : Datafile) (l1 l2 : list nat) (i : nat) (st : locals)
  (tr : list (event Y)) :
  readrec dbfile i = Raise IndexError ->
  recdump_loop args dbfile (l1 ++ i :: l2) st tr = recdump_loop args dbfile l1 st tr.
Proof.
  intros Hi. revert st tr. induction l1 as [|x l1 IH]; intros st tr.
  { cbn [app]. by rewrite recdump_loop_out_of_range. }
  cbn [app recdump_loop]. unfold bind.
  destruct (recdump_iter args dbfile x st tr) as [[[[[] st1]|e] tr1]|]; [apply IH|done..].
Qed.

Lemma recdump_loop_maxrecs (dbfile : Datafile) (n m : nat) (st : locals)
  (tr : list (event Y)) :
  readrec dbfile (S n) = Raise IndexError ->
  n <= m ->
  recdump_loop args dbfile (seq 1 m) st tr = recdump_loop args dbfile (seq 1 n) st tr.
Proof.
  intros Hend Hm. replace m with (n + (m - n)) by lia. rewrite seq_app.
  destruct (m - n) as [|r]; [by rewrite app_nil_r|].
  cbn [seq]. by apply recdump_loop_past_end.
Qed.

(** X16. A [maxrecs] beyond the end of the file changes nothing: when
    record [n + 1] of the swept file is out of range, [recdump] with any
    [maxrecs] from [n] on does what it does with [maxrecs = n]. *)
Theorem recdump_maxrecs_beyond_end (self : Database) (dbfile : Datafile) (n : nat)
  (tr : list (event Y)) :
  selected_file self args = Some dbfile ->
  readrec dbfile (S n) = Raise IndexError ->
  (Z.of_nat n <= Args.maxrecs args)%Z ->
  recdump self args tr = recdump self (with_maxrecs (Z.of_nat n) args) tr.
Proof.
  intros Hfile Hend Hmax. unfold recdump.
  fold (selected_file self args). fold (selected_file self (with_maxrecs (Z.of_nat n) args)).
  change (selected_file self (with_maxrecs (Z.of_nat n) args)) with (selected_file self args).
  rewrite Hfile. cbn [with_maxrecs Args.skipencrypted Args.maxrecs Args.stats].
  destruct (Args.skipencrypted args && (encoding dbfile =? 3)%N); [done|].
  assert (Hloop : recdump_loop (Y := Y) (with_maxrecs (Z.of_nat n) args) dbfile
                    (seq 1 (Z.to_nat (Z.of_nat n))) locals_init tr
                  = recdump_loop args dbfile (seq 1 (Z.to_nat (Args.maxrecs args)))
                      locals_init tr).
  { rewrite (recdump_loop_maxrecs dbfile n (Z.to_nat (Args.maxrecs args))) by (done || lia).
    rewrite Nat2Z.id. generalize (seq 1 n) (locals_init) tr. clear.
    intros l. induction l as [|i l IH]; intros st tr; [done|].
    cbn [recdump_loop]. unfold bind.
    change (recdump_iter (with_maxrecs (Z.of_nat n) args) dbfile i st tr)
      with (recdump_iter args dbfile i st tr).
    destruct (recdump_iter args dbfile i st tr) as [[[[[] st1]|e] tr1]|]; [apply IH|done..]. }
  unfold bind at 1 5. by rewrite Hloop.
Qed.

End RawSweep.

Lemma recdump_returns_witness :
  exists new,
    recdump (Y := Empty_set) (Example.database [] Example.five_broken)
      (Example.args 3 false true false) [Print DatNotFound] =
    Some (Ok tt, [Print DatNotFound] ++ new).
Proof.
  apply (recdump_returns (Example.args 3 false true false)
           (Example.database [] Example.five_broken) [Print DatNotFound]).
  reflexivity.
Defined.

Lemma recdump_maxrecs_beyond_end_witness :
  let self := Example.database [] [Present [x41]; Deleted] in
  recdump (Y := Empty_set) self (Example.args 1000 false true false) [] =
  recdump self (with_maxrecs (Z.of_nat 2) (Example.args 1000 false true false)) [].
Proof.
  intros self.
  apply (recdump_maxrecs_beyond_end (Example.args 1000 false true false) self
           (datafile_of_slots [Present [x41]; Deleted]) 2 []).
  - reflexivity.
  - reflexivity.
  - simpl. lia.
Defined.

(** ** Printing mode *)

Lemma datafile_of_slots_lookup (l1 l2 : list slot) (sl : slot) :
  readrec (datafile_of_slots (l1 ++ sl :: l2)) (S (length l1)) =
  match sl with
  | Present data => Ok (Some data)
  | Deleted => Ok None
  | Unreadable e => Raise e
  end.
Proof. cbn [datafile_of_slots readrec]. by rewrite list_lookup_middle. Qed.

Lemma datafile_of_slots_end (slots : list slot) :
  readrec (datafile_of_slots slots) (S (length slots)) = Raise IndexError.
Proof. cbn [datafile_of_slots readrec]. by rewrite lookup_ge_None_2. Qed.

Section Printing.

Context {Y : Type}.
Variable args : Args.t.
Hypothesis Hfind : Args.find1d args = false.
Hypothesis Hstats : Args.stats args = false.

(** The records [rd] of a store, after the records [done]: one line each,
    as long as the failure counter stays below six. *)
Lemma recdump_loop_print (done rd tail : list slot) (more : list nat) (st : locals)
  (tr : list (event Y)) :
  Args.debug args = false \/ Forall (fun sl => is_unreadable sl = false) rd ->
  Forall (fun sl => sl <> Unreadable IndexError) rd ->
  (forall l0 run l2, done ++ rd = l0 ++ run ++ l2 ->
                     Forall (fun sl => is_unreadable sl = true) run -> length run <= 5) ->
  (exists l0 l1, done = l0 ++ l1 /\ length l1 = nerr st /\
                 Forall (fun sl => is_unreadable sl = true) l1) ->
  exists st',
    recdump_loop args (datafile_of_slots (done ++ rd ++ tail))
      (seq (S (length done)) (length rd) ++ more) st tr =
    recdump_loop args (datafile_of_slots (done ++ rd ++ tail)) more st'
      (tr ++ (Print <$> imap (fun j sl => slot_line (S (length done + j)) sl) rd)).
Proof.
  revert done st tr. induction rd as [|sl rd IH]; intros done st tr Hmode Hidx Hruns Hinv.
  { exists st. by rewrite app_nil_r. }
  apply Forall_cons in Hidx as [Hsl Hidx].
  cbn [length seq app recdump_loop]. unfold bind at 1.
  assert (Hstore : done ++ (sl :: rd) ++ tail = (done ++ [sl]) ++ rd ++ tail)
    by (by rewrite <- app_assoc).
  assert (Hlen : length (done ++ [sl]) = S (length done))
    by (rewrite length_app; simpl; lia).
  assert (Hruns' : forall l0 run l2, (done ++ [sl]) ++ rd = l0 ++ run ++ l2 ->
                     Forall (fun sl => is_unreadable sl = true) run -> length run <= 5).
  { intros l0 run l2 Heq. apply (Hruns l0 run l2). by rewrite <- Heq, <- app_assoc. }
  assert (Hmode' : Args.debug args = false \/ Forall (fun sl => is_unreadable sl = false) rd).
  { destruct Hmode as [|Hr]; [by left|right]. by apply Forall_cons in Hr as [_ ?]. }
  assert (Hlines : forall tr0 : list (event Y),
    (tr0 ++ [Print (slot_line (S (length done)) sl)]) ++
      (Print <$> imap (fun j x => slot_line (S (S (length done) + j)) x) rd) =
    tr0 ++ (Print <$> imap (fun j x => slot_line (S (length done + j)) x) (sl :: rd))).
  { intros tr0. rewrite imap_cons, fmap_cons, <- app_assoc, Nat.add_0_r. cbn [app].
    do 3 f_equal. apply imap_ext. intros j x _. simpl. f_equal. lia. }
  unfold recdump_iter. cbn [app]. rewrite datafile_of_slots_lookup.
  destruct sl as [data| |e].
  - rewrite Hfind, Hstats. cbn [negb]. unfold bind, print, ret.
    destruct (IH (done ++ [Present data]) (set_nerr 0 st)
                (tr ++ [Print (RecData (S (length done)) data)])) as [st' Hloop];
      [done..| |].
    { exists (done ++ [Present data]), []. by rewrite app_nil_r. }
    exists st'. rewrite <- (app_assoc done [_]), Hlen in Hloop. cbn [app] in Hloop.
    by rewrite Hloop, Hlines.
  - rewrite Hfind, Hstats. cbn [negb]. unfold bind, print, ret.
    destruct (IH (done ++ [Deleted]) (set_nerr 0 st)
                (tr ++ [Print (RecDeleted (S (length done)))])) as [st' Hloop];
      [done..| |].
    { exists (done ++ [Deleted]), []. by rewrite app_nil_r. }
    exists st'. rewrite <- (app_assoc done [_]), Hlen in Hloop. cbn [app] in Hloop.
    by rewrite Hloop, Hlines.
  - destruct Hmode as [Hdebug|Hr]; [|by apply Forall_cons in Hr as [? _]].
    destruct Hinv as (l0 & l1 & Hdone & Hl1 & Hun).
    assert (Hshort : nerr st + 1 <= 5).
    { rewrite <- Hl1. specialize (Hruns l0 (l1 ++ [Unreadable e]) rd).
      rewrite length_app in Hruns. apply Hruns.
      - by rewrite Hdone, <- !app_assoc.
      - apply Forall_app. split; [done|]. by apply Forall_singleton. }
    assert (Hiter : (match e with
                     | IndexError => ret (Break, st)
                     | _ => print (RecError (S (length done)) e) ;;
                            if Args.debug args then raise e
                            else if 5 <? nerr (set_nerr (nerr st + 1) st)
                                 then ret (Break, set_nerr (nerr st + 1) st)
                                 else ret (Continue, set_nerr (nerr st + 1) st)
                     end) tr
                    = Some (Ok (Continue, set_nerr (nerr st + 1) st),
                            tr ++ [@Print Y (RecError (S (length done)) e)])).
    { cbn [set_nerr nerr]. destruct (Nat.ltb_spec 5 (nerr st + 1)); [lia|].
      destruct e; try done; unfold bind, print; by rewrite Hdebug. }
    rewrite Hiter.
    destruct (IH (done ++ [Unreadable e]) (set_nerr (nerr st + 1) st)
                (tr ++ [Print (RecError (S (length done)) e)])) as [st' Hloop];
      [done..| |].
    { exists l0, (l1 ++ [Unreadable e]). split_and!.
      - by rewrite Hdone, <- app_assoc.
      - rewrite length_app. cbn [set_nerr nerr length]. lia.
      - apply Forall_app. split; [done|]. by apply Forall_singleton. }
    exists st'. rewrite <- (app_assoc done [_]), Hlen in Hloop. cbn [app] in Hloop.
    by rewrite Hloop, Hlines.
Qed.

(** X17. In printing mode without [--debug], over a store in which no
    six records in a row are unreadable, the sweep reaches every record: with
    [maxrecs] at least the number of records, [recdump] prints one line per
    record, in order (the bytes, the deleted marker or the error), nothing
    else, and returns. *)
Theorem recdump_print_lines (self : Database) (slots : list slot) :
  Args.debug args = false ->
  selected_file self args = Some (datafile_of_slots slots) ->
  Forall (fun sl => sl <> Unreadable IndexError) slots ->
  (forall l0 run l2, slots = l0 ++ run ++ l2 ->
                     Forall (fun sl => is_unreadable sl = true) run -> length run <= 5) ->
  (Z.of_nat (length slots) <= Args.maxrecs args)%Z ->
  recdump (Y := Y) self args [] =
  Some (Ok tt, Print <$> imap (fun j sl => slot_line (S j) sl) slots).
Proof.
  intros Hdebug Hfile Hidx Hruns Hmax. unfold recdump. fold (selected_file self args).
  rewrite Hfile, Hstats. cbn [encoding datafile_of_slots N.eqb andb].
  rewrite andb_false_r. unfold bind at 1.
  rewrite (recdump_loop_maxrecs args (datafile_of_slots slots) (length slots))
    by (try apply datafile_of_slots_end; lia).
  destruct (recdump_loop_print [] slots [] [] locals_init []) as [st' Hloop];
    [by left|done|done| |].
  { by exists [], []. }
  rewrite !app_nil_r in Hloop. cbn [app length] in Hloop. by rewrite Hloop.
Qed.

(** X18. With [--debug], in printing mode, the first record whose read
    raises (anything but [IndexError]) ends the program: the records before
    it have their lines, the error is logged, and the exception is raised
    again out of [recdump]. *)
Theorem recdump_debug_raises (self : Database) (readable rest : list slot) (e : exn) :
  Args.debug args = true ->
  selected_file self args = Some (datafile_of_slots (readable ++ Unreadable e :: rest)) ->
  Forall (fun sl => is_unreadable sl = false) readable ->
  e <> IndexError ->
  (Z.of_nat (length readable) < Args.maxrecs args)%Z ->
  recdump (Y := Y) self args [] =
  Some (Raise e, Print <$> (imap (fun j sl => slot_line (S j) sl) readable
                            ++ [RecError (S (length readable)) e])).
Proof.
  intros Hdebug Hfile Hread He Hmax. unfold recdump. fold (selected_file self args).
  rewrite Hfile. cbn [encoding datafile_of_slots N.eqb andb].
  rewrite andb_false_r. unfold bind at 1.
  set (n := length readable).
  replace (Z.to_nat (Args.maxrecs args)) with (n + S (Z.to_nat (Args.maxrecs args) - S n))
    by lia.
  rewrite seq_app. cbn [seq].
  destruct (recdump_loop_print [] readable (Unreadable e :: rest)
              (1 + n :: seq (S (1 + n)) (Z.to_nat (Args.maxrecs args) - S n))
              locals_init []) as [st' Hloop].
  - by right.
  - apply Forall_forall. intros sl Hsl ->.
    by apply (proj1 (Forall_forall _ _) Hread) in Hsl.
  - intros l0 run l2 Heq Hrun. destruct run as [|sl run]; [simpl; lia|].
    apply Forall_cons in Hrun as [Hsl _].
    assert (sl ∈ readable) as Hin.
    { cbn [app] in Heq. rewrite Heq. apply elem_of_app. right. by left. }
    apply (proj1 (Forall_forall _ _) Hread) in Hin. congruence.
  - by exists [], [].
  - cbn [app length] in Hloop. fold n in Hloop. rewrite Hloop. clear Hloop.
    cbn [recdump_loop]. unfold bind at 1, recdump_iter.
    change (1 + n) with (S (length readable)). rewrite datafile_of_slots_lookup.
    rewrite fmap_app.
    destruct e; try done; unfold bind, print; by rewrite Hdebug.
Qed.

End Printing.

Lemma recdump_print_lines_witness :
  let e := Exception "bad record" in
  let slots := [Present [x41]; Unreadable e; Unreadable e; Deleted; Unreadable e] in
  recdump (Y := Empty_set) (Example.database [] slots) (Example.args 10 false false false) [] =
  Some (Ok tt, Print <$> imap (fun j sl => slot_line (S j) sl) slots).
Proof.
  intros e slots.
  apply (recdump_print_lines (Example.args 10 false false false) eq_refl eq_refl
           (Example.database [] slots) slots).
  - reflexivity.
  - reflexivity.
  - repeat constructor; done.
  - intros l0 run l2 Heq Hrun.
    destruct (decide (length run <= 5)) as [|Hlong]; [done|].
    apply (f_equal length) in Heq. rewrite !length_app in Heq. simpl in Heq. lia.
  - simpl. lia.
Defined.

Lemma recdump_debug_raises_witness :
  let e := Exception "bad record" in
  recdump (Y := Empty_set)
    (Example.database [] ([Present [x41]; Deleted] ++ Unreadable e :: [Present [x42]]))
    (Example.args 10 false false true) [] =
  Some (Raise e, Print <$> (imap (fun j sl => slot_line (S j) sl) [Present [x41]; Deleted]
                            ++ [RecError (S (length [Present [x41]; Deleted])) e])).
Proof.
  intros e.
  apply (recdump_debug_raises (Example.args 10 false false true) eq_refl eq_refl
           (Example.database [] ([Present [x41]; Deleted] ++ Unreadable e :: [Present [x42]]))
           [Present [x41]; Deleted] [Present [x42]] e).
  - reflexivity.
  - reflexivity.
  - repeat constructor.
  - done.
  - simpl. lia.
Defined.

(** ** Statistics over a whole store *)

Lemma sum_list_alter_S (l : list nat) (i : nat) :
  i < length l -> sum_list (alter S i l) = S (sum_list l).
Proof.
  revert i. induction l as [|x l IH]; intros i Hi; simpl in Hi; [lia|].
  destruct i as [|i]; [done|].
  change (alter S (S i) (x :: l)) with (x :: alter S i l).
  cbn [sum_list sum_list_with]. rewrite IH by lia. lia.
Qed.

Lemma count_bytes_length (data : bytes) (xref : list nat) :
  length (count_bytes data xref) = length xref.
Proof.
  revert xref. induction data as [|b data IH]; intros xref; [done|].
  unfold count_bytes in *. cbn [foldl]. by rewrite IH, length_alter.
Qed.

Lemma count_bytes_sum (data : bytes) (xref : list nat) :
  length xref = 256 -> sum_list (count_bytes data xref) = sum_list xref + length data.
Proof.
  revert xref. induction data as [|b data IH]; intros xref Hlen; [simpl; lia|].
  unfold count_bytes in *. cbn [foldl length].
  rewrite IH by (by rewrite length_alter).
  rewrite sum_list_alter_S; [lia|].
  pose proof (Byte.to_nat_bounded b). lia.
Qed.

Section StatisticsWhole.

Context {Y : Type}.
Variable args : Args.t.
Hypothesis Hfind : Args.find1d args = false.
Hypothesis Hstats : Args.stats args = true.

Lemma recdump_loop_stats (done rd tail : list slot) (more : list nat) (st : locals)
  (tr : list (event Y)) :
  Forall (fun sl => is_unreadable sl = false) rd ->
  length (tabidxref st) = 256 -> length (bytexref st) = 256 ->
  exists st',
    recdump_loop args (datafile_of_slots (done ++ rd ++ tail))
      (seq (S (length done)) (length rd) ++ more) st tr =
    recdump_loop args (datafile_of_slots (done ++ rd ++ tail)) more st' tr /\
    nr_recnone st' = nr_recnone st + length (filter (fun sl => sl = Deleted) rd) /\
    nr_recempty st' = nr_recempty st + length (filter (fun sl => sl = Present []) rd) /\
    nr_recnone st' + nr_recempty st' + sum_list (tabidxref st') =
      nr_recnone st + nr_recempty st + sum_list (tabidxref st) + length rd /\
    sum_list (bytexref st') = sum_list (bytexref st) + sum_list (slot_payload_length <$> rd) /\
    length (tabidxref st') = 256 /\ length (bytexref st') = 256.
Proof.
  revert done st. induction rd as [|sl rd IH]; intros done st Hrd Htab Hbyt.
  { exists st. simpl. split_and!; (done || lia). }
  apply Forall_cons in Hrd as [Hsl Hrd].
  assert (Hlen : length (done ++ [sl]) = S (length done))
    by (rewrite length_app; simpl; lia).
  assert (Hiter : forall data,
    readrec (datafile_of_slots (done ++ sl :: rd ++ tail)) (S (length done)) = Ok data ->
    recdump_loop args (datafile_of_slots (done ++ (sl :: rd) ++ tail))
      (seq (S (length done)) (length (sl :: rd)) ++ more) st tr =
    recdump_loop args (datafile_of_slots ((done ++ [sl]) ++ rd ++ tail))
      (seq (S (length (done ++ [sl]))) (length rd) ++ more)
      (set_nerr 0 (count_record data st)) tr).
  { intros data Hread. cbn [length seq app recdump_loop]. unfold bind at 1.
    rewrite (recdump_iter_stats args _ _ data) by done.
    by rewrite <- (app_assoc done [sl]), Hlen. }
  rewrite datafile_of_slots_lookup in Hiter.
  destruct sl as [[|b0 rest]| |e]; [| | |done].
  - destruct (IH (done ++ [Present []]) (set_nerr 0 (count_record (Some []) st)))
      as (st' & Hloop & Hnone & Hempty & Hsum & Hbytes & Htab' & Hbyt'); [done..|].
    exists st'. rewrite (Hiter _ eq_refl), Hloop, <- (app_assoc done [_]).
    rewrite !filter_cons, fmap_cons. simpl in *. split_and!; (done || lia).
  - destruct (IH (done ++ [Present (b0 :: rest)])
                (set_nerr 0 (count_record (Some (b0 :: rest)) st)))
      as (st' & Hloop & Hnone & Hempty & Hsum & Hbytes & Htab' & Hbyt'); [done| | |].
    { cbn [set_nerr count_record tabidxref]. by rewrite length_alter. }
    { cbn [set_nerr count_record bytexref]. by rewrite count_bytes_length. }
    exists st'. rewrite (Hiter _ eq_refl), Hloop, <- (app_assoc done [_]).
    rewrite !filter_cons, fmap_cons.
    cbn [set_nerr count_record tabidxref bytexref nr_recnone nr_recempty] in *.
    rewrite count_bytes_sum in Hbytes by done.
    rewrite sum_list_alter_S in Hsum
      by (pose proof (Byte.to_nat_bounded b0); lia).
    simpl. split_and!; (done || lia).
  - destruct (IH (done ++ [Deleted]) (set_nerr 0 (count_record None st)))
      as (st' & Hloop & Hnone & Hempty & Hsum & Hbytes & Htab' & Hbyt'); [done..|].
    exists st'. rewrite (Hiter _ eq_refl), Hloop, <- (app_assoc done [_]).
    rewrite !filter_cons, fmap_cons. simpl in *. split_and!; (done || lia).
Qed.

(** X19. In statistics mode, over a store whose records can all be read
    and with [maxrecs] at least their number, every record is counted once:
    the two counters are the numbers of deleted and of empty records, the
    buckets of [tabidxref] add up to the number of the other records, the
    buckets of [bytexref] to the number of bytes after the first byte of each
    record, and both histograms keep their 256 buckets. What [recdump] prints
    is these statistics. *)
Theorem recdump_stats_conservation (self : Database) (slots : list slot) :
  selected_file self args = Some (datafile_of_slots slots) ->
  Forall (fun sl => is_unreadable sl = false) slots ->
  (Z.of_nat (length slots) <= Args.maxrecs args)%Z ->
  exists st,
    recdump (Y := Y) self args [] =
    Some (Ok tt, Print <$> (TableIdStats (nr_recnone st) (nr_recempty st)
                            :: xref_lines (tabidxref st)
                            ++ ByteStats :: xref_lines (bytexref st))) /\
    nr_recnone st = length (filter (fun sl => sl = Deleted) slots) /\
    nr_recempty st = length (filter (fun sl => sl = Present []) slots) /\
    nr_recnone st + nr_recempty st + sum_list (tabidxref st) = length slots /\
    sum_list (bytexref st) = sum_list (slot_payload_length <$> slots) /\
    length (tabidxref st) = 256 /\ length (bytexref st) = 256.
Proof.
  intros Hfile Hread Hmax.
  destruct (recdump_loop_stats [] slots [] [] locals_init [] Hread)
    as (st & Hloop & Hnone & Hempty & Hsum & Hbytes & Htab & Hbyt); [done..|].
  exists st. rewrite !app_nil_r in Hloop. cbn [app length] in Hloop.
  split_and!; [|done|done| |done|done|done].
  - unfold recdump. fold (selected_file self args).
    rewrite Hfile, Hstats. cbn [encoding datafile_of_slots N.eqb andb].
    rewrite andb_false_r. unfold bind at 1.
    rewrite (recdump_loop_maxrecs args (datafile_of_slots slots) (length slots))
      by (try apply datafile_of_slots_end; lia).
    rewrite Hloop. cbn [recdump_loop]. unfold ret, when, bind, print.
    rewrite print_xref_run. unfold bind, print. rewrite print_xref_run.
    rewrite fmap_cons, fmap_app, fmap_cons. by rewrite <- !app_assoc.
  - assert (sum_list (tabidxref locals_init) = 0) as H0.
    { cbn [locals_init tabidxref]. by vm_compute. }
    rewrite H0 in Hsum. cbn [locals_init nr_recnone nr_recempty] in Hsum. lia.
Qed.

End StatisticsWhole.

Lemma recdump_stats_conservation_witness :
  let slots := [Present [x05; x41; x42]; Deleted; Present []; Present [x07]; Deleted] in
  exists st,
    recdump (Y := Empty_set) (Example.database [] slots) (Example.args 10 false true false) [] =
    Some (Ok tt, Print <$> (TableIdStats (nr_recnone st) (nr_recempty st)
                            :: xref_lines (tabidxref st)
                            ++ ByteStats :: xref_lines (bytexref st))) /\
    nr_recnone st = length (filter (fun sl => sl = Deleted) slots) /\
    nr_recempty st = length (filter (fun sl => sl = Present []) slots) /\
    nr_recnone st + nr_recempty st + sum_list (tabidxref st) = length slots /\
    sum_list (bytexref st) = sum_list (slot_payload_length <$> slots) /\
    length (tabidxref st) = 256 /\ length (bytexref st) = 256.
Proof.
  intros slots.
  apply (recdump_stats_conservation (Example.args 10 false true false) eq_refl eq_refl
           (Example.database [] slots) slots).
  - reflexivity.
  - repeat constructor.
  - simpl. lia.
Defined.

(** ** Pattern scan with statistics *)

Section PatternScanStatistics.

Context {Y : Type}.
Variable args : Args.t.
Hypothesis Hfind : Args.find1d args = true.
Hypothesis Hdebug : Args.debug args = false.

(** In the pattern scan the loop prints error lines and then at most one
    hit, and leaves the four statistics variables as they were. *)
Lemma recdump_loop_find1d (dbfile : Datafile) (idxs : list nat) (st : locals)
  (tr : list (event Y)) :
  exists st' errs hit,
    recdump_loop args dbfile idxs st tr = Some (Ok st', tr ++ (Print <$> errs ++ hit)) /\
    Forall (fun l => is_error_line l = true) errs /\
    Forall (fun l => is_found_line l = true) hit /\ length hit <= 1 /\
    nr_recnone st' = nr_recnone st /\ nr_recempty st' = nr_recempty st /\
    tabidxref st' = tabidxref st /\ bytexref st' = bytexref st.
Proof.
  revert st tr. induction idxs as [|i idxs IH]; intros st tr.
  { exists st, [], []. simpl. rewrite app_nil_r. split_and!; (done || lia). }
  cbn [recdump_loop]. unfold bind at 1, recdump_iter. rewrite Hfind.
  destruct (readrec dbfile i) as [data|e].
  - destruct (find1d_hit data).
    + exists st, [], [Found1d i (default [] data)].
      split_and!; try done; try (by repeat constructor); simpl; try lia.
    + unfold ret. destruct (IH (set_nerr 0 st) tr)
        as (st' & errs & hit & -> & Herrs & Hhit & Hlen & H1 & H2 & H3 & H4).
      exists st', errs, hit. by split_and!.
  - assert (Hother : exists st' errs hit,
        (r <- (print (RecError i e) ;;
               if Args.debug args then raise e
               else if 5 <? nerr (set_nerr (nerr st + 1) st)
                    then ret (Break, set_nerr (nerr st + 1) st)
                    else ret (Continue, set_nerr (nerr st + 1) st)) ;;
         match r with
         | (Continue, st) => recdump_loop args dbfile idxs st
         | (Break, st) => ret st
         end) tr = Some (Ok st', tr ++ (Print <$> errs ++ hit)) /\
        Forall (fun l => is_error_line l = true) errs /\
        Forall (fun l => is_found_line l = true) hit /\ length hit <= 1 /\
        nr_recnone st' = nr_recnone st /\ nr_recempty st' = nr_recempty st /\
        tabidxref st' = tabidxref st /\ bytexref st' = bytexref st).
    { unfold bind, print. rewrite Hdebug.
      destruct (5 <? nerr (set_nerr (nerr st + 1) st)).
      - exists (set_nerr (nerr st + 1) st), [RecError i e], [].
        split_and!; try done; try (by repeat constructor); simpl; try lia.
      - unfold ret. destruct (IH (set_nerr (nerr st + 1) st) (tr ++ [Print (RecError i e)]))
          as (st' & errs & hit & -> & Herrs & Hhit & Hlen & H1 & H2 & H3 & H4).
        exists st', (RecError i e :: errs), hit.
        split_and!; try done; [by rewrite <- app_assoc|by constructor]. }
    destruct e; try exact Hother.
    exists st, [], []. unfold ret. simpl. rewrite app_nil_r. split_and!; (done || lia).
Qed.

(** X20. The pattern scan comes before the statistics: with [--find1d]
    and [--stats] both given (and no [--debug]), no record is ever counted.
    Whatever the swept file holds, [recdump] prints the error lines of the
    records that could not be read, then at most one hit, and then
    statistics that are empty: zero deleted, zero empty, and no bucket
    line under either header. *)
Theorem recdump_find1d_stats_empty (self : Database) (dbfile : Datafile) :
  Args.stats args = true ->
  selected_file self args = Some dbfile ->
  (Args.skipencrypted args && (encoding dbfile =? 3)%N) = false ->
  exists errs hit,
    recdump (Y := Y) self args [] =
    Some (Ok tt, Print <$> (errs ++ hit ++ [TableIdStats 0 0; ByteStats])) /\
    Forall (fun l => is_error_line l = true) errs /\
    Forall (fun l => is_found_line l = true) hit /\ length hit <= 1.
Proof.
  intros Hstats Hfile Hskip. unfold recdump. fold (selected_file self args).
  rewrite Hfile, Hskip, Hstats. unfold bind at 1.
  destruct (recdump_loop_find1d dbfile (seq 1 (Z.to_nat (Args.maxrecs args))) locals_init [])
    as (st & errs & hit & -> & Herrs & Hhit & Hlen & -> & -> & -> & ->).
  exists errs, hit. split; [|done].
  unfold when, bind, print. rewrite print_xref_run. unfold bind, print.
  rewrite print_xref_run.
  assert (xref_lines (tabidxref locals_init) = []) as -> by by vm_compute.
  assert (xref_lines (bytexref locals_init) = []) as -> by by vm_compute.
  cbn [app fmap list_fmap]. rewrite !app_nil_r, !fmap_app, <- !app_assoc. done.
Qed.

End PatternScanStatistics.

Lemma recdump_find1d_stats_empty_witness :
  let slots := [Present [x05; x41]; Unreadable EOFError; Deleted; Present [x05; x1d];
                Present [x07; x42]] in
  exists errs hit,
    recdump (Y := Empty_set) (Example.database [] slots) (Example.args 10 true true false) [] =
    Some (Ok tt, Print <$> (errs ++ hit ++ [TableIdStats 0 0; ByteStats])) /\
    Forall (fun l => is_error_line l = true) errs /\
    Forall (fun l => is_found_line l = true) hit /\ length hit <= 1.
Proof.
  intros slots.
  apply (recdump_find1d_stats_empty (Example.args 10 true true false) eq_refl eq_refl
           (Example.database [] slots) (datafile_of_slots slots)); reflexivity.
Defined.
